(** * Mergington High School activities API (src/app.py)

    A shallow embedding of the SQLite-backed handlers of [src/app.py]
    and the properties of sign-up, unregister, listing and bootstrap.

    Modelling conventions.
    - Table [activities] has [name TEXT PRIMARY KEY]; it is a finite map
      from the name to the remaining columns, so the key constraint holds
      by construction.
    - Table [participants] is the list of its rows in scan order (ascending
      rowid).  Its [id] column is [INTEGER PRIMARY KEY AUTOINCREMENT]: a new
      row gets a rowid above every rowid of the table and above the value
      remembered in [sqlite_sequence].  The [UNIQUE(activity_name, email)]
      constraint is checked by [insert_participant], which is the only way
      a row is added.
    - A statement completes, raises [sqlite3.IntegrityError] on a
      constraint, or raises [sqlite3.OperationalError] when AUTOINCREMENT
      has no rowid left: the table holds, or has held, the largest rowid
      2^63-1.  The source catches the first only.  A full disk is outside
      the model.
    - A handler maps the database to what it returns or the [HTTPException]
      it raises, and the database it leaves behind.  [init_db] runs when the
      module is imported, before any handler: handlers work on a [db], whose
      two tables exist, and only [init_db] sees a [file] in which a table
      may be missing. *)

From stdpp Require Import gmap strings list fin_maps.

#[local] Open Scope Z_scope.

(** ** Data model *)

(** Rows of the two tables.  [Row.activity] holds the columns of
    [activities] other than the key [name]. *)
Module Row.
Record activity := Activity {
  description : string;
  schedule : string;
  max_participants : option Z
}.

Record participant := Participant {
  id : Z;
  activity_name : string;
  email : string
}.
End Row.

(** The value stored under an activity name, both in [INITIAL_ACTIVITIES]
    and in the dictionary returned by [get_activities]. *)
Module Entry.
Record t := Make {
  description : string;
  schedule : string;
  max_participants : option Z;
  participants : list string
}.
End Entry.

(** The database once both tables exist. *)
Record db := Db {
  activities : gmap string Row.activity;
  participants : list Row.participant;
  sqlite_sequence : Z
}.

(** The database file as [init_db] finds it: each table is there or not;
    the [participants] table comes with its [sqlite_sequence] entry. *)
Record file := File {
  file_activities : option (gmap string Row.activity);
  file_participants : option (list Row.participant * Z)
}.

(** Outcome of a statement: done, a constraint violated, or the table
    out of rowids ("database or disk is full"). *)
Inductive sqlite (A : Type) : Type :=
  | Done (a : A)
  | IntegrityError
  | OperationalError.
Arguments Done {A} a.
Arguments IntegrityError {A}.
Arguments OperationalError {A}.

(** Outcome of a request handler.  The status codes are those of the
    source: 404 is the NotFound kind and 400 the Conflict kind of the
    error model.  [UncaughtOperationalError] is a [sqlite3.OperationalError]
    that leaves the handler, no [except] clause matching it. *)
Inductive outcome (A : Type) : Type :=
  | Returns (a : A)
  | HTTPException (status_code : Z) (detail : string)
  | UncaughtOperationalError.
Arguments Returns {A} a.
Arguments HTTPException {A} status_code detail.
Arguments UncaughtOperationalError {A}.

(** The [{"message": ...}] body of a successful sign-up or unregister. *)
Record message_body := Message { message : string }.

(** ** Initial catalogue *)

Definition INITIAL_ACTIVITIES : list (string * Entry.t) :=
  [ ("Chess Club",
     Entry.Make "Learn strategies and compete in chess tournaments"
       "Fridays, 3:30 PM - 5:00 PM" (Some 12)
       ["michael@mergington.edu"; "daniel@mergington.edu"]);
    ("Programming Class",
     Entry.Make "Learn programming fundamentals and build software projects"
       "Tuesdays and Thursdays, 3:30 PM - 4:30 PM" (Some 20)
       ["emma@mergington.edu"; "sophia@mergington.edu"]);
    ("Gym Class",
     Entry.Make "Physical education and sports activities"
       "Mondays, Wednesdays, Fridays, 2:00 PM - 3:00 PM" (Some 30)
       ["john@mergington.edu"; "olivia@mergington.edu"]);
    ("Soccer Team",
     Entry.Make "Join the school soccer team and compete in matches"
       "Tuesdays and Thursdays, 4:00 PM - 5:30 PM" (Some 22)
       ["liam@mergington.edu"; "noah@mergington.edu"]);
    ("Basketball Team",
     Entry.Make "Practice and play basketball with the school team"
       "Wednesdays and Fridays, 3:30 PM - 5:00 PM" (Some 15)
       ["ava@mergington.edu"; "mia@mergington.edu"]);
    ("Art Club",
     Entry.Make "Explore your creativity through painting and drawing"
       "Thursdays, 3:30 PM - 5:00 PM" (Some 15)
       ["amelia@mergington.edu"; "harper@mergington.edu"]);
    ("Drama Club",
     Entry.Make "Act, direct, and produce plays and performances"
       "Mondays and Wednesdays, 4:00 PM - 5:30 PM" (Some 20)
       ["ella@mergington.edu"; "scarlett@mergington.edu"]);
    ("Math Club",
     Entry.Make "Solve challenging problems and participate in math competitions"
       "Tuesdays, 3:30 PM - 4:30 PM" (Some 10)
       ["james@mergington.edu"; "benjamin@mergington.edu"]);
    ("Debate Team",
     Entry.Make "Develop public speaking and argumentation skills"
       "Fridays, 4:00 PM - 5:30 PM" (Some 12)
       ["charlotte@mergington.edu"; "henry@mergington.edu"]) ].

(** ** SQL statements *)

(** [WHERE activity_name = ? AND email = ?] *)
Definition is_signup (activity_name email : string) (p : Row.participant) : Prop :=
  Row.activity_name p = activity_name ∧ Row.email p = email.

#[global] Instance is_signup_dec a e p : Decision (is_signup a e p).
Proof. unfold is_signup. apply _. Defined.

(** [SELECT ... FROM participants WHERE activity_name = ? AND email = ?],
    followed by [fetchone()]. *)
Definition select_signup (activity_name email : string) (d : db)
  : option Row.participant :=
  List.find (λ p, bool_decide (is_signup activity_name email p)) (participants d).

(** [SELECT COUNT( * ) FROM participants WHERE activity_name = ?] *)
Definition count_participants (activity_name : string) (d : db) : Z :=
  Z.of_nat (length (filter (λ p, Row.activity_name p = activity_name) (participants d))).

(** Largest rowid of the table, 0 when it is empty. *)
Definition largest_rowid (rows : list Row.participant) : Z :=
  match rows with
  | [] => 0
  | p :: ps => foldr (λ q m, Z.max (Row.id q) m) (Row.id p) ps
  end.

(** The largest rowid of a 64-bit signed integer key. *)
Definition MAX_ROWID : Z := 9223372036854775807.

(** The largest rowid the table holds or has held. *)
Definition high_water (d : db) : Z :=
  Z.max (largest_rowid (participants d)) (sqlite_sequence d).

(** The rowid AUTOINCREMENT gives to the next row: one above the largest
    rowid ever held, and none once that is [MAX_ROWID]. *)
Definition new_rowid (d : db) : option Z :=
  if bool_decide (MAX_ROWID ≤ high_water d)
  then None
  else Some (Z.max (largest_rowid (participants d) + 1) (sqlite_sequence d + 1)).

(** [INSERT INTO participants (activity_name, email) VALUES (?, ?)].  The
    rowid is chosen before the [UNIQUE] index is checked. *)
Definition insert_participant (activity_name email : string) (d : db) : sqlite db :=
  match new_rowid d with
  | None => OperationalError
  | Some i =>
      if bool_decide (Exists (is_signup activity_name email) (participants d))
      then IntegrityError
      else
        Done {| activities := activities d;
                participants := participants d ++ [Row.Participant i activity_name email];
                sqlite_sequence := i |}
  end.

(** [INSERT INTO activities (name, description, schedule, max_participants)
    VALUES (?, ?, ?, ?)] *)
Definition insert_activity (name : string) (r : Row.activity) (d : db) : sqlite db :=
  match activities d !! name with
  | Some _ => IntegrityError
  | None =>
      Done {| activities := <[name := r]> (activities d);
              participants := participants d;
              sqlite_sequence := sqlite_sequence d |}
  end.

(** [DELETE FROM participants WHERE id = ?] *)
Definition delete_participant (i : Z) (d : db) : db :=
  {| activities := activities d;
     participants := filter (λ p, Row.id p ≠ i) (participants d);
     sqlite_sequence := sqlite_sequence d |}.

(** ** init_db *)

(** The two [CREATE TABLE IF NOT EXISTS] statements. *)
Definition create_tables (f : file) : db :=
  let ps := default ([], 0) (file_participants f) in
  {| activities := default ∅ (file_activities f);
     participants := ps.1;
     sqlite_sequence := ps.2 |}.

(** The file a database is stored as. *)
Definition persist (d : db) : file :=
  {| file_activities := Some (activities d);
     file_participants := Some (participants d, sqlite_sequence d) |}.

(** The inner loop of the bootstrap: a duplicate is skipped, any other
    error leaves the loop. *)
Fixpoint seed_participants (name : string) (emails : list string) (d : db)
  : sqlite db :=
  match emails with
  | [] => Done d
  | email :: emails' =>
      match insert_participant name email d with
      | Done d' => seed_participants name emails' d'
      | IntegrityError => seed_participants name emails' d
      | OperationalError => OperationalError
      end
  end.

(** The outer loop of the bootstrap; an error of the activity insert, or
    one that left the inner loop, is not caught. *)
Fixpoint seed_activities (items : list (string * Entry.t)) (d : db) : sqlite db :=
  match items with
  | [] => Done d
  | (name, data) :: items' =>
      match insert_activity name
              (Row.Activity (Entry.description data) (Entry.schedule data)
                 (Entry.max_participants data)) d with
      | Done d1 =>
          match seed_participants name (Entry.participants data) d1 with
          | Done d2 => seed_activities items' d2
          | IntegrityError => IntegrityError
          | OperationalError => OperationalError
          end
      | IntegrityError => IntegrityError
      | OperationalError => OperationalError
      end
  end.

(** The tables are created and committed first.  The seeding is one
    transaction, committed at its end: when [init_db] raises, the file
    keeps what [create_tables] left. *)
Definition init_db (f : file) : sqlite db :=
  let d := create_tables f in
  if bool_decide (Z.of_nat (size (activities d)) = 0)
  then seed_activities INITIAL_ACTIVITIES d
  else Done d.

(** ** Handlers *)

Definition build_activity_dict (rows : list (string * Row.activity))
  : gmap string Entry.t :=
  foldl (λ result r,
           <[r.1 := Entry.Make (Row.description r.2) (Row.schedule r.2)
                      (Row.max_participants r.2) []]> result) ∅ rows.

(** [activities[aname]["participants"].append(email)] *)
Definition append_participant (email : string) (e : Entry.t) : Entry.t :=
  Entry.Make (Entry.description e) (Entry.schedule e) (Entry.max_participants e)
    (Entry.participants e ++ [email]).

(** One turn of the loop over the participant rows. *)
Definition load_participant (acts : gmap string Entry.t) (row : Row.participant)
  : gmap string Entry.t :=
  let aname := Row.activity_name row in
  match acts !! aname with
  | Some _ => alter (append_participant (Row.email row)) aname acts
  | None => acts
  end.

(** [fetchall()] on [activities] gives each row once, as a name and its
    other columns. *)
Definition get_activities (d : db) : outcome (gmap string Entry.t) * db :=
  let acts := build_activity_dict (map_to_list (activities d)) in
  let acts := foldl load_participant acts (participants d) in
  (Returns acts, d).

Definition signup_for_activity (activity_name email : string) (d : db)
  : outcome message_body * db :=
  match activities d !! activity_name with
  | None => (HTTPException 404 "Activity not found", d)
  | Some row =>
      let max_p := Row.max_participants row in
      match select_signup activity_name email d with
      | Some _ => (HTTPException 400 "Student is already signed up", d)
      | None =>
          let count := count_participants activity_name d in
          if match max_p with
             | Some m => bool_decide (count >= m)
             | None => false
             end
          then (HTTPException 400 "Activity is full", d)
          else
            match insert_participant activity_name email d with
            | Done d' =>
                (Returns (Message ("Signed up " +:+ email +:+ " for " +:+ activity_name)), d')
            | IntegrityError => (HTTPException 400 "Student is already signed up", d)
            | OperationalError => (UncaughtOperationalError, d)
            end
      end
  end.

Definition unregister_from_activity (activity_name email : string) (d : db)
  : outcome message_body * db :=
  match activities d !! activity_name with
  | None => (HTTPException 404 "Activity not found", d)
  | Some _ =>
      match select_signup activity_name email d with
      | None => (HTTPException 400 "Student is not signed up for this activity", d)
      | Some row =>
          (Returns (Message ("Unregistered " +:+ email +:+ " from " +:+ activity_name)),
           delete_participant (Row.id row) d)
      end
  end.

(** ** Sequential use of the API *)

Inductive request :=
  | SignUp (activity_name email : string)
  | Unregister (activity_name email : string).

(** The database after one request has been served. *)
Definition serve (d : db) (r : request) : db :=
  match r with
  | SignUp a e => (signup_for_activity a e d).2
  | Unregister a e => (unregister_from_activity a e d).2
  end.

(** Requests served one after the other. *)
Definition serve_all (rs : list request) (d : db) : db := foldl serve d rs.

(** ** Predicates on states *)

(** A participant record for the pair exists. *)
Definition signed_up (activity_name email : string) (d : db) : Prop :=
  ∃ p, p ∈ participants d ∧ is_signup activity_name email p.

(** Every participant row names a row of [activities]. *)
Definition referential_integrity (d : db) : Prop :=
  ∀ p, p ∈ participants d → is_Some (activities d !! Row.activity_name p).

(** The e-mails of the rows of one activity, in scan order. *)
Definition emails_of (activity_name : string) (rows : list Row.participant)
  : list string :=
  Row.email <$> filter (λ p, Row.activity_name p = activity_name) rows.

(** The dictionary value of an activity row with a given participant
    list. *)
Definition entry_of_row (r : Row.activity) (emails : list string) : Entry.t :=
  Entry.Make (Row.description r) (Row.schedule r) (Row.max_participants r) emails.

(** The number of participant rows a catalogue asks for. *)
Definition seed_rows (items : list (string * Entry.t)) : Z :=
  foldr (λ item n, Z.of_nat (length (Entry.participants item.2)) + n) 0 items.

(** ** Schema constraints *)

(** [id INTEGER PRIMARY KEY]: no two participant rows share a rowid. *)
Definition unique_rowids (d : db) : Prop :=
  NoDup (Row.id <$> participants d).

(** The columns of the [UNIQUE(activity_name, email)] index. *)
Definition signup_key (p : Row.participant) : string * string :=
  (Row.activity_name p, Row.email p).

(** [UNIQUE(activity_name, email)]: no two participant rows share a pair. *)
Definition unique_signups (d : db) : Prop :=
  NoDup (signup_key <$> participants d).

(** ** Sample states *)

(** A small database: "Chess Club" has room, "Tiny Club" is full, "Open
    Club" has no capacity. *)
Definition sample_db : db :=
  Db (<["Chess Club" := Row.Activity "Learn strategies" "Fridays" (Some 12)]>
      (<["Tiny Club" := Row.Activity "Two seats" "Mondays" (Some 2)]>
      (<["Open Club" := Row.Activity "Everyone" "Daily" None]> ∅)))
     [ Row.Participant 1 "Chess Club" "michael@mergington.edu";
       Row.Participant 2 "Tiny Club" "emma@mergington.edu";
       Row.Participant 4 "Tiny Club" "john@mergington.edu";
       Row.Participant 5 "Chess Club" "daniel@mergington.edu" ]
     7.

(** A database whose only participant row names no activity. *)
Definition orphan_db : db :=
  Db ∅ [Row.Participant 1 "Chess Club" "x@mergington.edu"] 1.

(** A database whose participants table has held the largest rowid: the
    activity has room, the table has no rowid left. *)
Definition ceiling_db : db :=
  Db (<["Chess Club" := Row.Activity "Learn strategies" "Fridays" (Some 12)]> ∅)
     [Row.Participant 1 "Chess Club" "michael@mergington.edu"]
     MAX_ROWID.

(** * Properties *)

(** ** The queries *)

Section queries.
Implicit Types (a e : string) (d : db) (p : Row.participant).

Lemma select_signup_None a e d :
  select_signup a e d = None ↔ ¬ signed_up a e d.
Proof.
  unfold select_signup, signed_up.
  induction (participants d) as [|q ps IH]; simpl.
  - split; [intros _ (p & Hp & _); by apply elem_of_nil in Hp | done].
  - case_bool_decide as Hq.
    + split; [done | intros []]. exists q. split; [left | done].
    + rewrite IH. split.
      * intros Hps (p & [-> | Hp]%elem_of_cons & Hs); [done |].
        apply Hps. by exists p.
      * intros Hps (p & Hp & Hs). apply Hps. exists p. split; [by right | done].
Qed.

Lemma select_signup_Some a e d p :
  select_signup a e d = Some p → p ∈ participants d ∧ is_signup a e p.
Proof.
  unfold select_signup.
  induction (participants d) as [|q ps IH]; simpl; [done |].
  case_bool_decide as Hq.
  - intros [= ->]. split; [left | done].
  - intros [Hp Hs]%IH. split; [by right | done].
Qed.

Lemma select_signup_is_Some a e d :
  signed_up a e d → is_Some (select_signup a e d).
Proof.
  intros Hs. destruct (select_signup a e d) eqn:E; [by eexists |].
  by apply select_signup_None in E.
Qed.

Lemma Exists_signed_up a e d :
  Exists (is_signup a e) (participants d) ↔ signed_up a e d.
Proof. unfold signed_up. by rewrite Exists_exists. Qed.

Lemma largest_rowid_cons_ge p ps : Row.id p ≤ largest_rowid (p :: ps).
Proof.
  simpl. generalize (Row.id p) as i.
  induction ps as [|q ps IH]; intros i; simpl; [lia |].
  specialize (IH i). lia.
Qed.

Lemma largest_rowid_ge (rows : list Row.participant) p :
  p ∈ rows → Row.id p ≤ largest_rowid rows.
Proof.
  destruct rows as [|q ps]; [by intros ?%elem_of_nil |].
  intros [-> | Hp]%elem_of_cons; [apply largest_rowid_cons_ge |].
  simpl. generalize (Row.id q) as i.
  induction ps as [|r ps IH]; intros i; [by apply elem_of_nil in Hp |].
  simpl. apply elem_of_cons in Hp as [-> | Hp]; [lia |].
  specialize (IH Hp i). lia.
Qed.

(** AUTOINCREMENT never reuses a rowid of the table. *)
Lemma high_water_fresh d p : p ∈ participants d → Row.id p < high_water d + 1.
Proof. intros Hp%largest_rowid_ge. unfold high_water. lia. Qed.

Lemma new_rowid_Some d :
  high_water d < MAX_ROWID → new_rowid d = Some (high_water d + 1).
Proof.
  intros Hlt. unfold new_rowid. rewrite bool_decide_eq_false_2 by lia.
  f_equal. unfold high_water. lia.
Qed.

Lemma new_rowid_None d : MAX_ROWID ≤ high_water d → new_rowid d = None.
Proof. intros Hle. unfold new_rowid. by rewrite bool_decide_eq_true_2. Qed.

Lemma insert_participant_Done a e d :
  high_water d < MAX_ROWID →
  ¬ signed_up a e d →
  insert_participant a e d =
    Done (Db (activities d)
            (participants d ++ [Row.Participant (high_water d + 1) a e])
            (high_water d + 1)).
Proof.
  intros Hlt Hs. unfold insert_participant. rewrite (new_rowid_Some _ Hlt).
  rewrite bool_decide_eq_false_2; [done |]. by rewrite Exists_signed_up.
Qed.

Lemma insert_participant_IntegrityError a e d :
  high_water d < MAX_ROWID →
  signed_up a e d → insert_participant a e d = IntegrityError.
Proof.
  intros Hlt Hs. unfold insert_participant. rewrite (new_rowid_Some _ Hlt).
  rewrite bool_decide_eq_true_2; [done |]. by rewrite Exists_signed_up.
Qed.

(** With no rowid left the insert fails, duplicate or not. *)
Lemma insert_participant_OperationalError a e d :
  MAX_ROWID ≤ high_water d → insert_participant a e d = OperationalError.
Proof.
  intros Hle. unfold insert_participant. by rewrite (new_rowid_None _ Hle).
Qed.

Lemma insert_participant_Done_inv a e d d' :
  insert_participant a e d = Done d' →
  high_water d < MAX_ROWID ∧ ¬ signed_up a e d ∧
  d' = Db (activities d)
          (participants d ++ [Row.Participant (high_water d + 1) a e])
          (high_water d + 1).
Proof.
  destruct (decide (high_water d < MAX_ROWID)) as [Hlt | Hge].
  - destruct (select_signup a e d) as [p|] eqn:Hsel.
    + rewrite insert_participant_IntegrityError; [done .. |].
      apply select_signup_Some in Hsel as [Hp Hs]. by exists p.
    + apply select_signup_None in Hsel.
      rewrite insert_participant_Done by done. by intros [= <-].
  - rewrite insert_participant_OperationalError; [done | lia].
Qed.

Lemma insert_participant_IntegrityError_inv a e d :
  insert_participant a e d = IntegrityError → signed_up a e d.
Proof.
  unfold insert_participant. destruct (new_rowid d); [| done].
  case_bool_decide as Hs; [| done]. intros _. by apply Exists_signed_up.
Qed.

Lemma insert_participant_OperationalError_inv a e d :
  insert_participant a e d = OperationalError → MAX_ROWID ≤ high_water d.
Proof.
  unfold insert_participant, new_rowid.
  case_bool_decide as Hge; [done |]. by case_bool_decide.
Qed.

Lemma count_participants_app a acts ps qs s s' :
  count_participants a (Db acts (ps ++ qs) s) =
    count_participants a (Db acts ps s') + count_participants a (Db acts qs s').
Proof.
  unfold count_participants. simpl. rewrite filter_app, length_app. lia.
Qed.

Lemma count_participants_nonneg a d : 0 ≤ count_participants a d.
Proof. unfold count_participants. lia. Qed.
End queries.

(** ** Sign-up *)

Section signup.
Implicit Types (a e : string) (d : db).

Lemma signup_for_activity_not_found a e d :
  activities d !! a = None →
  signup_for_activity a e d = (HTTPException 404 "Activity not found", d).
Proof. unfold signup_for_activity. by intros ->. Qed.

Lemma signup_for_activity_duplicate a e d :
  is_Some (activities d !! a) → signed_up a e d →
  signup_for_activity a e d =
    (HTTPException 400 "Student is already signed up", d).
Proof.
  unfold signup_for_activity.
  by intros [row ->] [p ->]%select_signup_is_Some.
Qed.

Lemma signup_for_activity_full a e d row m :
  activities d !! a = Some row → ¬ signed_up a e d →
  Row.max_participants row = Some m → ¬ count_participants a d < m →
  signup_for_activity a e d = (HTTPException 400 "Activity is full", d).
Proof.
  unfold signup_for_activity.
  intros -> ->%select_signup_None -> Hm.
  rewrite bool_decide_eq_true_2; [done | lia].
Qed.

Lemma signup_for_activity_inserts a e d row :
  activities d !! a = Some row → ¬ signed_up a e d →
  Row.max_participants row = None ∨
  (∃ m, Row.max_participants row = Some m ∧ count_participants a d < m) →
  high_water d < MAX_ROWID →
  signup_for_activity a e d =
    (Returns (Message ("Signed up " +:+ e +:+ " for " +:+ a)),
     Db (activities d)
        (participants d ++ [Row.Participant (high_water d + 1) a e])
        (high_water d + 1)).
Proof.
  unfold signup_for_activity.
  intros -> Hs Hroom Hlt. pose proof Hs as ->%select_signup_None.
  rewrite (insert_participant_Done _ _ _ Hlt Hs).
  destruct Hroom as [-> | (m & -> & Hm)]; [done |].
  rewrite bool_decide_eq_false_2; [done | lia].
Qed.

(** With the three checks passed and no rowid left, the insert raises an
    error the handler does not catch; nothing is written. *)
Lemma signup_for_activity_no_rowid a e d row :
  activities d !! a = Some row → ¬ signed_up a e d →
  Row.max_participants row = None ∨
  (∃ m, Row.max_participants row = Some m ∧ count_participants a d < m) →
  MAX_ROWID ≤ high_water d →
  signup_for_activity a e d = (UncaughtOperationalError, d).
Proof.
  unfold signup_for_activity.
  intros -> ->%select_signup_None Hroom Hge.
  rewrite (insert_participant_OperationalError _ _ _ Hge).
  destruct Hroom as [-> | (m & -> & Hm)]; [done |].
  rewrite bool_decide_eq_false_2; [done | lia].
Qed.

(** C1 (as amended): sign-up checks its three preconditions in order and
    fails on the first one violated.  When no activity is named [a] it
    raises 404 (NotFound) "Activity not found".  Otherwise, when a record
    for [(a, e)] exists it raises 400 (Conflict) "Student is already
    signed up".  Otherwise, when [max_participants] is not null and the
    count of the activity is not strictly below it, it raises 400
    (Conflict) "Activity is full".  Otherwise, provided the participants
    table has a rowid left (the largest rowid it holds or has held is
    below 2^63-1), it appends the record, with the next rowid, and returns
    the confirmation.  A failure leaves the database as it was. *)
Theorem signup_for_activity_checks a e d :
  (activities d !! a = None →
     signup_for_activity a e d = (HTTPException 404 "Activity not found", d)) ∧
  (∀ row, activities d !! a = Some row →
     (signed_up a e d →
        signup_for_activity a e d =
          (HTTPException 400 "Student is already signed up", d)) ∧
     (¬ signed_up a e d →
        (∀ m, Row.max_participants row = Some m →
              ¬ count_participants a d < m →
              signup_for_activity a e d =
                (HTTPException 400 "Activity is full", d)) ∧
        (Row.max_participants row = None ∨
         (∃ m, Row.max_participants row = Some m ∧ count_participants a d < m) →
         high_water d < MAX_ROWID →
         signup_for_activity a e d =
           (Returns (Message ("Signed up " +:+ e +:+ " for " +:+ a)),
            Db (activities d)
               (participants d ++ [Row.Participant (high_water d + 1) a e])
               (high_water d + 1))))).
Proof.
  split; [apply signup_for_activity_not_found |].
  intros row Ha. split.
  - by apply signup_for_activity_duplicate.
  - intros Hs. split.
    + intros m. by apply signup_for_activity_full.
    + by apply signup_for_activity_inserts.
Qed.

Lemma signup_for_activity_checks_witness :
  signup_for_activity "Nonexistent Club" "x@mergington.edu" sample_db =
    (HTTPException 404 "Activity not found", sample_db) ∧
  signup_for_activity "Chess Club" "michael@mergington.edu" sample_db =
    (HTTPException 400 "Student is already signed up", sample_db) ∧
  signup_for_activity "Tiny Club" "x@mergington.edu" sample_db =
    (HTTPException 400 "Activity is full", sample_db) ∧
  signup_for_activity "Chess Club" "x@mergington.edu" sample_db =
    (Returns (Message "Signed up x@mergington.edu for Chess Club"),
     Db (activities sample_db)
        (participants sample_db ++
           [Row.Participant 8 "Chess Club" "x@mergington.edu"]) 8) ∧
  signup_for_activity "Open Club" "x@mergington.edu" sample_db =
    (Returns (Message "Signed up x@mergington.edu for Open Club"),
     Db (activities sample_db)
        (participants sample_db ++
           [Row.Participant 8 "Open Club" "x@mergington.edu"]) 8).
Proof.
  split; [| split; [| split; [| split]]].
  - apply (signup_for_activity_checks "Nonexistent Club" _ sample_db).
    vm_compute. reflexivity.
  - refine (proj1 (proj2 (signup_for_activity_checks "Chess Club" _ sample_db)
              _ _) _); [vm_compute; reflexivity |].
    exists (Row.Participant 1 "Chess Club" "michael@mergington.edu").
    split; [left | done].
  - refine (proj1 (proj2 (proj2 (signup_for_activity_checks "Tiny Club" _ sample_db)
              _ _) _) 2 _ _); [vm_compute; reflexivity | | reflexivity | vm_compute; discriminate].
    apply select_signup_None. vm_compute. reflexivity.
  - refine (proj2 (proj2 (proj2 (signup_for_activity_checks "Chess Club" _ sample_db)
              _ _) _) _ _); [vm_compute; reflexivity | | | vm_compute; reflexivity].
    + apply select_signup_None. vm_compute. reflexivity.
    + right. exists 12. split; [reflexivity | vm_compute; reflexivity].
  - refine (proj2 (proj2 (proj2 (signup_for_activity_checks "Open Club" _ sample_db)
              _ _) _) _ _); [vm_compute; reflexivity | | | vm_compute; reflexivity].
    + apply select_signup_None. vm_compute. reflexivity.
    + left. reflexivity.
Defined.

(** Counterexample to C1 as stated: in [ceiling_db] the activity exists,
    the pair is not registered and the activity has room, yet the sign-up
    neither inserts nor succeeds: the insert finds no rowid left and its
    error leaves the handler. *)
Lemma signup_for_activity_ceiling_counterexample :
  activities ceiling_db !! "Chess Club" =
    Some (Row.Activity "Learn strategies" "Fridays" (Some 12)) ∧
  ¬ signed_up "Chess Club" "x@mergington.edu" ceiling_db ∧
  count_participants "Chess Club" ceiling_db < 12 ∧
  signup_for_activity "Chess Club" "x@mergington.edu" ceiling_db =
    (UncaughtOperationalError, ceiling_db) ∧
  ¬ (∀ a e d row,
       activities d !! a = Some row → ¬ signed_up a e d →
       Row.max_participants row = None ∨
       (∃ m, Row.max_participants row = Some m ∧ count_participants a d < m) →
       ∃ body d', signup_for_activity a e d = (Returns body, d')).
Proof.
  assert (¬ signed_up "Chess Club" "x@mergington.edu" ceiling_db) as Hs
    by (apply select_signup_None; vm_compute; reflexivity).
  split; [vm_compute; reflexivity |]. split; [exact Hs |].
  split; [vm_compute; reflexivity |]. split; [vm_compute; reflexivity |].
  intros H.
  destruct (H "Chess Club" "x@mergington.edu" ceiling_db
              (Row.Activity "Learn strategies" "Fridays" (Some 12)))
    as (body & d' & Hup); [vm_compute; reflexivity | exact Hs | |].
  - right. exists 12. split; [reflexivity | vm_compute; reflexivity].
  - vm_compute in Hup. discriminate Hup.
Qed.
End signup.

Section signup_effects.
Implicit Types (a e : string) (d : db).

(** What a successful sign-up has checked and done. *)
Lemma signup_for_activity_Returns a e d body d1 :
  signup_for_activity a e d = (Returns body, d1) →
  (∃ row, activities d !! a = Some row ∧
          ∀ m, Row.max_participants row = Some m → count_participants a d < m) ∧
  ¬ signed_up a e d ∧
  d1 = Db (activities d)
          (participants d ++ [Row.Participant (high_water d + 1) a e])
          (high_water d + 1).
Proof.
  unfold signup_for_activity.
  destruct (activities d !! a) as [row|] eqn:Ha; [| done].
  destruct (select_signup a e d) eqn:Hsel; [done |].
  apply select_signup_None in Hsel.
  destruct (insert_participant a e d) as [d'| |] eqn:Hins;
    [| by repeat case_match ..].
  apply insert_participant_Done_inv in Hins as (_ & _ & ->).
  destruct (Row.max_participants row) as [m|] eqn:Hmax.
  - case_bool_decide as Hm; [done |].
    intros [= _ <-]. split; [| done].
    exists row. split; [done |]. intros m' Hm'.
    assert (m' = m) as -> by congruence. lia.
  - intros [= _ <-]. split; [| done]. exists row. split; [done | congruence].
Qed.

(** A successful sign-up found a rowid left. *)
Lemma signup_for_activity_Returns_rowid a e d body d1 :
  signup_for_activity a e d = (Returns body, d1) → high_water d < MAX_ROWID.
Proof.
  unfold signup_for_activity.
  destruct (insert_participant a e d) as [d'| |] eqn:Hins;
    [| by repeat case_match ..].
  by apply insert_participant_Done_inv in Hins as (Hlt & _).
Qed.

(** What a sign-up ending in the uncaught error has checked. *)
Lemma signup_for_activity_uncaught a e d d1 :
  signup_for_activity a e d = (UncaughtOperationalError, d1) →
  d1 = d ∧ MAX_ROWID ≤ high_water d ∧ ¬ signed_up a e d ∧
  ∃ row, activities d !! a = Some row ∧
         ∀ m, Row.max_participants row = Some m → count_participants a d < m.
Proof.
  unfold signup_for_activity.
  destruct (activities d !! a) as [row|] eqn:Ha; [| done].
  destruct (select_signup a e d) eqn:Hsel; [done |].
  apply select_signup_None in Hsel.
  destruct (decide (high_water d < MAX_ROWID)) as [Hlt | Hge].
  { rewrite (insert_participant_Done _ _ _ Hlt Hsel). by repeat case_match. }
  rewrite insert_participant_OperationalError by lia.
  destruct (Row.max_participants row) as [m|] eqn:Hmax.
  - case_bool_decide as Hm; [done |].
    intros [= <-]. split; [done |]. split; [lia |]. split; [done |].
    exists row. split; [done |]. intros m' Hm'.
    assert (m' = m) as -> by congruence. lia.
  - intros [= <-]. split; [done |]. split; [lia |]. split; [done |].
    exists row. split; [done | congruence].
Qed.

(** A sign-up that raises leaves the database as it was. *)
Lemma signup_for_activity_raises a e d status detail d1 :
  signup_for_activity a e d = (HTTPException status detail, d1) → d1 = d.
Proof.
  unfold signup_for_activity, insert_participant.
  repeat case_match; by intros [= <-].
Qed.

(** The [except sqlite3.IntegrityError] branch of the sign-up is never
    taken when requests do not overlap: the insert follows a check that
    the pair is absent. *)
Lemma signup_for_activity_insert_succeeds a e d :
  select_signup a e d = None → insert_participant a e d ≠ IntegrityError.
Proof.
  intros Hs%select_signup_None.
  destruct (decide (high_water d < MAX_ROWID)) as [Hlt | Hge].
  - by rewrite insert_participant_Done.
  - rewrite insert_participant_OperationalError; [done | lia].
Qed.

(** C5 (as amended): in every state in which the activity [a] exists and
    the pair [(a, e)] is already registered, a sign-up for the pair raises
    400 (Conflict) "Student is already signed up" and leaves the whole
    database, so the participants table and the count of the activity,
    unchanged. *)
Theorem duplicate_signup_rejected a e d :
  is_Some (activities d !! a) →
  signed_up a e d →
  signup_for_activity a e d =
    (HTTPException 400 "Student is already signed up", d) ∧
  participants (signup_for_activity a e d).2 = participants d ∧
  count_participants a (signup_for_activity a e d).2 = count_participants a d.
Proof.
  intros Ha Hs. by rewrite signup_for_activity_duplicate.
Qed.

Lemma duplicate_signup_rejected_witness :
  signed_up "Chess Club" "michael@mergington.edu" sample_db ∧
  signup_for_activity "Chess Club" "michael@mergington.edu" sample_db =
    (HTTPException 400 "Student is already signed up", sample_db).
Proof.
  assert (signed_up "Chess Club" "michael@mergington.edu" sample_db) as Hs.
  { exists (Row.Participant 1 "Chess Club" "michael@mergington.edu").
    split; [left | done]. }
  split; [exact Hs |].
  apply (duplicate_signup_rejected "Chess Club" "michael@mergington.edu" sample_db);
    [vm_compute; eauto | exact Hs].
Defined.

(** Counterexample to C5 as stated: in [orphan_db] the pair is registered
    and no activity has its name; the sign-up raises 404, not 400. *)
Lemma duplicate_signup_orphan_counterexample :
  signed_up "Chess Club" "x@mergington.edu" orphan_db ∧
  signup_for_activity "Chess Club" "x@mergington.edu" orphan_db =
    (HTTPException 404 "Activity not found", orphan_db) ∧
  ¬ (∀ a e d, signed_up a e d →
       ∃ detail, (signup_for_activity a e d).1 = HTTPException 400 detail).
Proof.
  assert (signed_up "Chess Club" "x@mergington.edu" orphan_db) as Hs.
  { exists (Row.Participant 1 "Chess Club" "x@mergington.edu").
    split; [left | done]. }
  split; [exact Hs |]. split; [by vm_compute |].
  intros H. destruct (H _ _ _ Hs) as [detail Hd].
  vm_compute in Hd. discriminate Hd.
Qed.

(** The same sign-up sent again right after it succeeded is rejected and
    changes nothing. *)
Lemma signup_twice_rejected a e d body d1 :
  signup_for_activity a e d = (Returns body, d1) →
  signup_for_activity a e d1 =
    (HTTPException 400 "Student is already signed up", d1).
Proof.
  intros ((row & Ha & _) & _ & ->)%signup_for_activity_Returns.
  apply signup_for_activity_duplicate; [by exists row |].
  exists (Row.Participant (high_water d + 1) a e). simpl.
  split; [| done]. apply elem_of_app. right. left.
Qed.
End signup_effects.

(** ** Unregister *)

Section unregister.
Implicit Types (a e : string) (d : db).

(** C6: unregister raises 404 (NotFound) "Activity not found" when no
    activity is named [a], and raises 400 "Student is not signed up for
    this activity" when the activity exists and no record for [(a, e)]
    does; either way the database, so the count of the activity, is
    unchanged. *)
Theorem unregister_from_activity_failures a e d :
  (activities d !! a = None →
     unregister_from_activity a e d =
       (HTTPException 404 "Activity not found", d) ∧
     count_participants a (unregister_from_activity a e d).2 =
       count_participants a d) ∧
  (is_Some (activities d !! a) → ¬ signed_up a e d →
     unregister_from_activity a e d =
       (HTTPException 400 "Student is not signed up for this activity", d) ∧
     count_participants a (unregister_from_activity a e d).2 =
       count_participants a d).
Proof.
  unfold unregister_from_activity. split.
  - by intros ->.
  - intros [row ->] ->%select_signup_None. done.
Qed.

Lemma unregister_from_activity_failures_witness :
  unregister_from_activity "Nonexistent Club" "x@mergington.edu" sample_db =
    (HTTPException 404 "Activity not found", sample_db) ∧
  unregister_from_activity "Chess Club" "x@mergington.edu" sample_db =
    (HTTPException 400 "Student is not signed up for this activity", sample_db).
Proof.
  split.
  - apply (unregister_from_activity_failures "Nonexistent Club" _ sample_db).
    vm_compute. reflexivity.
  - apply (unregister_from_activity_failures "Chess Club" _ sample_db).
    + vm_compute. eauto.
    + apply select_signup_None. vm_compute. reflexivity.
Defined.

(** An unregister that raises leaves the database as it was. *)
Lemma unregister_from_activity_raises a e d status detail d1 :
  unregister_from_activity a e d = (HTTPException status detail, d1) → d1 = d.
Proof.
  unfold unregister_from_activity. repeat case_match; by intros [= <-].
Qed.

Lemma signup_for_activity_activities a e d :
  activities (signup_for_activity a e d).2 = activities d.
Proof.
  unfold signup_for_activity, insert_participant.
  repeat case_match; simplify_eq; done.
Qed.

Lemma unregister_from_activity_activities a e d :
  activities (unregister_from_activity a e d).2 = activities d.
Proof. unfold unregister_from_activity. by repeat case_match. Qed.

End unregister.

(** ** Sign-up followed by unregister *)

Section roundtrip.
Implicit Types (a e : string) (d : db).

(** The row a sign-up appended is the one the unregister query finds. *)
Lemma select_signup_appended a e d acts i s :
  ¬ signed_up a e d →
  select_signup a e (Db acts (participants d ++ [Row.Participant i a e]) s) =
    Some (Row.Participant i a e).
Proof.
  unfold select_signup, signed_up. simpl.
  induction (participants d) as [|q ps IH]; intros Hs; simpl.
  - by rewrite bool_decide_eq_true_2.
  - rewrite bool_decide_eq_false_2.
    + apply IH. intros (p & Hp & Hps). apply Hs. exists p. split; [by right | done].
    + intros Hq. apply Hs. exists q. split; [left | done].
Qed.

(** Deleting by a rowid above all others removes the last row only. *)
Lemma delete_appended (rows : list Row.participant) i a e :
  (∀ p, p ∈ rows → Row.id p < i) →
  filter (λ p, Row.id p ≠ i) (rows ++ [Row.Participant i a e]) = rows.
Proof.
  intros Hlt. rewrite filter_app, filter_cons_False, filter_nil, app_nil_r.
  - induction rows as [|q ps IH]; [done |].
    rewrite filter_cons_True.
    + f_equal. apply IH. intros p Hp. apply Hlt. by right.
    + assert (Row.id q < i) by (apply Hlt; left). lia.
  - simpl. intros Hi. by apply Hi.
Qed.

(** The dictionary of [get_activities] reads the two tables only. *)
Lemma get_activities_tables d d' :
  activities d' = activities d → participants d' = participants d →
  (get_activities d').1 = (get_activities d).1.
Proof. unfold get_activities. simpl. by intros -> ->. Qed.

(** C4: when a sign-up for [(a, e)] succeeds, an unregister of the same
    pair right after it succeeds too and restores the participants table
    row for row, so the participant list of every activity, as
    [get_activities] reports it, is what it was before the sign-up. *)
Theorem signup_unregister_roundtrip a e d body d1 :
  signup_for_activity a e d = (Returns body, d1) →
  ∃ d2,
    unregister_from_activity a e d1 =
      (Returns (Message ("Unregistered " +:+ e +:+ " from " +:+ a)), d2) ∧
    participants d2 = participants d ∧
    activities d2 = activities d ∧
    emails_of a (participants d2) = emails_of a (participants d) ∧
    (get_activities d2).1 = (get_activities d).1.
Proof.
  intros ((row & Ha & _) & Hs & ->)%signup_for_activity_Returns.
  unfold unregister_from_activity. simpl. rewrite Ha.
  rewrite (select_signup_appended _ _ _ _ _ _ Hs). simpl.
  eexists. split; [reflexivity |].
  unfold delete_participant. simpl.
  rewrite delete_appended by apply high_water_fresh.
  do 3 (split; [done |]). by apply get_activities_tables.
Qed.

Lemma signup_unregister_roundtrip_witness :
  ∃ body d1 d2,
    signup_for_activity "Chess Club" "x@mergington.edu" sample_db = (Returns body, d1) ∧
    unregister_from_activity "Chess Club" "x@mergington.edu" d1 =
      (Returns (Message "Unregistered x@mergington.edu from Chess Club"), d2) ∧
    participants d2 = participants sample_db.
Proof.
  eexists _, _.
  assert (signup_for_activity "Chess Club" "x@mergington.edu" sample_db =
            (Returns (Message "Signed up x@mergington.edu for Chess Club"),
             Db (activities sample_db)
                (participants sample_db ++
                   [Row.Participant 8 "Chess Club" "x@mergington.edu"]) 8)) as Hup
    by (vm_compute; reflexivity).
  destruct (signup_unregister_roundtrip _ _ _ _ _ Hup) as (d2 & Hun & Hps & _).
  exists d2. split; [exact Hup |]. split; [exact Hun | exact Hps].
Defined.
End roundtrip.

(** ** Capacity *)

Section capacity.
Implicit Types (a e : string) (d : db).

Lemma length_filter_filter {A} (P Q : A → Prop)
    `{!∀ x, Decision (P x)} `{!∀ x, Decision (Q x)} (l : list A) :
  (length (filter P (filter Q l)) ≤ length (filter P l))%nat.
Proof.
  induction l as [|x l IH]; [done |].
  rewrite (filter_cons Q), (filter_cons P).
  destruct (decide (Q x)), (decide (P x));
    rewrite ?filter_cons_True, ?filter_cons_False by done; simpl; lia.
Qed.

(** Deleting rows never raises a count. *)
Lemma count_participants_delete a i d :
  count_participants a (delete_participant i d) ≤ count_participants a d.
Proof.
  unfold count_participants, delete_participant. simpl.
  apply Nat2Z.inj_le, length_filter_filter.
Qed.

(** One request keeps an activity within its capacity. *)
Lemma serve_within_capacity a row m r d :
  activities d !! a = Some row → Row.max_participants row = Some m →
  count_participants a d ≤ m →
  count_participants a (serve d r) ≤ m.
Proof.
  intros Ha Hmax Hle. destruct r as [a' e' | a' e']; simpl.
  - destruct (signup_for_activity a' e' d) as [[body | status detail |] d1] eqn:Hup.
    + apply signup_for_activity_Returns in Hup as ((row' & Ha' & Hroom) & _ & ->).
      simpl. rewrite (count_participants_app _ _ _ _ _ (sqlite_sequence d)).
      unfold count_participants at 2. simpl.
      destruct (decide (a' = a)) as [-> | Hne].
      * rewrite filter_cons_True by done. simpl.
        assert (row' = row) as -> by congruence.
        specialize (Hroom m Hmax). destruct d; simpl in *. lia.
      * rewrite filter_cons_False by done. simpl. destruct d; simpl in *. lia.
    + apply signup_for_activity_raises in Hup as ->. done.
    + by apply signup_for_activity_uncaught in Hup as [-> _].
  - unfold unregister_from_activity. repeat case_match; simpl; try done.
    etrans; [apply count_participants_delete | done].
Qed.

Lemma serve_activities r d : activities (serve d r) = activities d.
Proof.
  destruct r; simpl;
    [apply signup_for_activity_activities | apply unregister_from_activity_activities].
Qed.

(** C2: take an activity with a capacity [m] and a state in which it has
    at most [m] participant records.  After any sequence of sign-up and
    unregister requests served one after the other, the activity still has
    this capacity and at most [m] participant records; as every prefix of a
    sequence is a sequence, the bound holds at every step. *)
Theorem capacity_never_exceeded a row m rs d :
  activities d !! a = Some row →
  Row.max_participants row = Some m →
  count_participants a d ≤ m →
  activities (serve_all rs d) !! a = Some row ∧
  count_participants a (serve_all rs d) ≤ m.
Proof.
  unfold serve_all. revert d.
  induction rs as [|r rs IH]; intros d Ha Hmax Hle; [done |].
  simpl. apply IH; [by rewrite serve_activities | done |].
  by eapply serve_within_capacity.
Qed.

Lemma capacity_never_exceeded_witness :
  count_participants "Tiny Club"
    (serve_all [ SignUp "Tiny Club" "x@mergington.edu";
                 Unregister "Tiny Club" "emma@mergington.edu";
                 SignUp "Tiny Club" "y@mergington.edu";
                 SignUp "Tiny Club" "z@mergington.edu" ] sample_db) ≤ 2.
Proof.
  apply (capacity_never_exceeded "Tiny Club"
           (Row.Activity "Two seats" "Mondays" (Some 2)) 2 _ sample_db).
  - vm_compute. reflexivity.
  - reflexivity.
  - vm_compute. discriminate.
Defined.
End capacity.

(** ** Listing *)

Section listing.
Implicit Types (d : db) (acts : gmap string Row.activity)
  (rows : list Row.participant) (k : string).

Lemma build_activity_dict_snoc (l : list (string * Row.activity)) r :
  build_activity_dict (l ++ [r]) =
    <[r.1 := entry_of_row r.2 []]> (build_activity_dict l).
Proof. unfold build_activity_dict. by rewrite foldl_snoc. Qed.

Lemma build_activity_dict_lookup_Some (l : list (string * Row.activity)) k v :
  NoDup l.*1 →
  build_activity_dict l !! k = Some v ↔ ∃ r, (k, r) ∈ l ∧ v = entry_of_row r [].
Proof.
  induction l as [|[k' r'] l IH] using rev_ind; intros Hnd.
  - unfold build_activity_dict. simpl. rewrite lookup_empty.
    split; [done | intros (r & Hr & _); by apply elem_of_nil in Hr].
  - rewrite fmap_app in Hnd. apply NoDup_app in Hnd as (Hnd & Hfresh & _).
    rewrite build_activity_dict_snoc, lookup_insert_Some, (IH Hnd). simpl.
    split.
    + intros [[-> <-] | [Hne (r & Hr & ->)]].
      * exists r'. split; [| done]. apply elem_of_app. right. left.
      * exists r. split; [| done]. apply elem_of_app. by left.
    + intros (r & [Hr | Hr]%elem_of_app & ->).
      * right. split; [| by exists r]. intros ->.
        apply (Hfresh k); [| left].
        apply list_elem_of_fmap. by exists (k, r).
      * apply list_elem_of_singleton in Hr as [= -> ->]. by left.
Qed.

(** The first pass gives every row of [activities] an entry with no
    participant. *)
Lemma build_activity_dict_table acts :
  build_activity_dict (map_to_list acts) = (λ r, entry_of_row r []) <$> acts.
Proof.
  apply map_eq. intros k. apply option_eq. intros v.
  rewrite build_activity_dict_lookup_Some by apply NoDup_fst_map_to_list.
  rewrite lookup_fmap_Some. setoid_rewrite elem_of_map_to_list.
  split; [intros (r & Hr & ->) | intros (r & <- & Hr)]; by exists r.
Qed.

Lemma load_participant_lookup (m : gmap string Entry.t) (p : Row.participant) k :
  load_participant m p !! k =
    if decide (Row.activity_name p = k)
    then append_participant (Row.email p) <$> m !! k
    else m !! k.
Proof.
  unfold load_participant.
  destruct (m !! Row.activity_name p) eqn:Hp.
  - rewrite lookup_alter. case_decide as Hk; [by rewrite Hk | done].
  - case_decide as Hk; [| done]. rewrite <- Hk, Hp. done.
Qed.

Lemma emails_of_cons k p rows :
  emails_of k (p :: rows) =
    if decide (Row.activity_name p = k)
    then Row.email p :: emails_of k rows
    else emails_of k rows.
Proof.
  unfold emails_of. rewrite filter_cons. by case_decide.
Qed.

(** The second pass appends to each entry the e-mails of its rows. *)
Lemma foldl_load_participant_lookup rows (m : gmap string Entry.t) k :
  foldl load_participant m rows !! k =
    (λ en, Entry.Make (Entry.description en) (Entry.schedule en)
             (Entry.max_participants en)
             (Entry.participants en ++ emails_of k rows)) <$> m !! k.
Proof.
  revert m. induction rows as [|p rows IH]; intros m; simpl.
  - destruct (m !! k) as [[]|]; simpl; [| done]. by rewrite app_nil_r.
  - rewrite IH, load_participant_lookup, emails_of_cons.
    case_decide; [| done].
    destruct (m !! k) as [[]|]; simpl; [| done]. by rewrite <- app_assoc.
Qed.

(** The dictionary [get_activities] assembles, entry by entry. *)
Lemma assembled_lookup acts rows k :
  foldl load_participant (build_activity_dict (map_to_list acts)) rows !! k =
    (λ r, entry_of_row r (emails_of k rows)) <$> acts !! k.
Proof.
  rewrite foldl_load_participant_lookup, build_activity_dict_table, lookup_fmap.
  by destruct (acts !! k).
Qed.

(** C7: in every state, listing the activities returns (it has no raise
    path) and leaves the database alone.  The dictionary returned has
    exactly the names of table [activities] as keys; under a name it holds
    the description, schedule and max_participants of that row and the
    e-mails of the participant rows with that activity name, in scan
    order.  With no activity the dictionary is empty. *)
Theorem get_activities_lists_all d :
  ∃ result,
    get_activities d = (Returns result, d) ∧
    (∀ k, result !! k =
            (λ r, Entry.Make (Row.description r) (Row.schedule r)
                    (Row.max_participants r) (emails_of k (participants d)))
              <$> activities d !! k) ∧
    dom result = dom (activities d) ∧
    size result = size (activities d) ∧
    (activities d = ∅ → result = ∅).
Proof.
  eexists. split; [reflexivity |].
  assert (dom (foldl load_participant
                 (build_activity_dict (map_to_list (activities d)))
                 (participants d)) = dom (activities d)) as Hdom.
  { apply set_eq. intros k.
    by rewrite !elem_of_dom, assembled_lookup, fmap_is_Some. }
  split; [intros k; apply assembled_lookup |].
  split; [exact Hdom |].
  split; [by rewrite <- !size_dom, Hdom |].
  intros Hempty. apply map_eq. intros k.
  by rewrite assembled_lookup, Hempty, !lookup_empty.
Qed.

Lemma get_activities_lists_all_witness :
  get_activities orphan_db = (Returns ∅, orphan_db).
Proof.
  destruct (get_activities_lists_all orphan_db) as (result & -> & _ & _ & _ & Hempty).
  by rewrite Hempty.
Defined.

Lemma emails_of_orphan k rows1 p rows2 :
  Row.activity_name p ≠ k →
  emails_of k (rows1 ++ p :: rows2) = emails_of k (rows1 ++ rows2).
Proof.
  intros Hne. unfold emails_of.
  by rewrite !filter_app, filter_cons_False.
Qed.

(** C10: a participant row whose activity name has no row in
    [activities] leaves no trace in the listing.  Wherever the row sits in
    the table, the dictionary is the one returned without it, and the
    name of its activity is not a key. *)
Theorem get_activities_omits_orphans acts rows1 p rows2 s :
  acts !! Row.activity_name p = None →
  (get_activities (Db acts (rows1 ++ p :: rows2) s)).1 =
    (get_activities (Db acts (rows1 ++ rows2) s)).1 ∧
  ∃ result,
    (get_activities (Db acts (rows1 ++ p :: rows2) s)).1 = Returns result ∧
    result !! Row.activity_name p = None.
Proof.
  intros Hp. unfold get_activities. simpl. split.
  - f_equal. apply map_eq. intros k. rewrite !assembled_lookup.
    destruct (decide (Row.activity_name p = k)) as [<- | Hne].
    + by rewrite Hp.
    + by rewrite emails_of_orphan.
  - eexists. split; [reflexivity |]. by rewrite assembled_lookup, Hp.
Qed.

Lemma get_activities_omits_orphans_witness :
  (get_activities
     (Db (activities sample_db)
        ([Row.Participant 1 "Chess Club" "michael@mergington.edu"] ++
         Row.Participant 3 "Ghost Club" "x@mergington.edu" ::
         [Row.Participant 5 "Chess Club" "daniel@mergington.edu"]) 7)).1 =
  (get_activities
     (Db (activities sample_db)
        ([Row.Participant 1 "Chess Club" "michael@mergington.edu"] ++
         [Row.Participant 5 "Chess Club" "daniel@mergington.edu"]) 7)).1.
Proof.
  apply (get_activities_omits_orphans (activities sample_db)
           [Row.Participant 1 "Chess Club" "michael@mergington.edu"]
           (Row.Participant 3 "Ghost Club" "x@mergington.edu")
           [Row.Participant 5 "Chess Club" "daniel@mergington.edu"] 7).
  vm_compute. reflexivity.
Defined.
End listing.

(** ** Bootstrap *)

Section bootstrap.
Implicit Types (d : db) (f : file) (items : list (string * Entry.t)).

Lemma INITIAL_ACTIVITIES_NoDup : NoDup INITIAL_ACTIVITIES.*1.
Proof. apply (bool_decide_unpack _). by vm_compute. Qed.

Lemma foldr_max_rowid_le (ps : list Row.participant) b c :
  foldr (λ q m, Z.max (Row.id q) m) (Z.max c b) ps ≤
    Z.max (foldr (λ q m, Z.max (Row.id q) m) b ps) c.
Proof. induction ps as [|q ps IH]; simpl; lia. Qed.

Lemma largest_rowid_snoc_le (ps : list Row.participant) p :
  largest_rowid (ps ++ [p]) ≤ Z.max (largest_rowid ps) (Row.id p).
Proof.
  destruct ps as [|q ps]; simpl; [lia |].
  rewrite foldr_app. simpl. apply foldr_max_rowid_le.
Qed.

(** An insert raises the largest rowid ever held by one. *)
Lemma high_water_insert a e d d' :
  insert_participant a e d = Done d' → high_water d' = high_water d + 1.
Proof.
  intros (_ & _ & ->)%insert_participant_Done_inv.
  unfold high_water at 1. simpl.
  pose proof (largest_rowid_snoc_le (participants d)
                (Row.Participant (high_water d + 1) a e)) as Hle.
  simpl in Hle. unfold high_water in *. lia.
Qed.

(** What the inner loop has done when it completes: it touches table
    [participants] only, keeps the rows it found in front, adds rows of
    the activity being seeded only, and leaves every e-mail registered. *)
Lemma seed_participants_spec name emails d d' :
  seed_participants name emails d = Done d' →
  activities d' = activities d ∧
  participants d `prefix_of` participants d' ∧
  (∀ p, p ∈ participants d' →
        p ∈ participants d ∨ Row.activity_name p = name) ∧
  (∀ email, email ∈ emails → signed_up name email d').
Proof.
  revert d. induction emails as [|email emails IH]; intros d; simpl.
  - intros [= <-]. do 2 (split; [done |]).
    split; [by left | by intros ? ?%elem_of_nil].
  - destruct (insert_participant name email d) as [d1| |] eqn:Hins; [| | done].
    + pose proof Hins as (_ & _ & Hd1)%insert_participant_Done_inv.
      intros (Hacts & Hpre & Hrows & Hall)%IH. subst d1. simpl in *.
      split; [done |]. split; [by eapply prefix_app_l |]. split.
      * intros p [[Hp | Hp]%elem_of_app | Hp]%Hrows; auto.
        apply list_elem_of_singleton in Hp as ->. by right.
      * intros email' [-> | Hin]%elem_of_cons; [| by apply Hall].
        exists (Row.Participant (high_water d + 1) name email).
        split; [| done]. eapply elem_of_prefix; [| exact Hpre].
        apply elem_of_app. right. left.
    + apply insert_participant_IntegrityError_inv in Hins as (p & Hp & Hs).
      intros (Hacts & Hpre & Hrows & Hall)%IH.
      do 3 (split; [done |]).
      intros email' [-> | Hin]%elem_of_cons; [| by apply Hall].
      exists p. split; [| done]. by eapply elem_of_prefix.
Qed.

(** The inner loop never ends in the error it catches. *)
Lemma seed_participants_not_IntegrityError name emails d :
  seed_participants name emails d ≠ IntegrityError.
Proof.
  revert d. induction emails as [|email emails IH]; intros d; simpl; [done |].
  destruct (insert_participant name email d); [apply IH | apply IH | done].
Qed.

(** The inner loop completes when the table has a rowid left for each
    e-mail, and uses no more. *)
Lemma seed_participants_Done name emails d :
  high_water d + Z.of_nat (length emails) ≤ MAX_ROWID →
  ∃ d', seed_participants name emails d = Done d' ∧
        high_water d' ≤ high_water d + Z.of_nat (length emails).
Proof.
  revert d. induction emails as [|email emails IH]; intros d Hroom; simpl in *.
  - exists d. split; [done | lia].
  - rewrite Nat2Z.inj_succ in *.
    destruct (insert_participant name email d) as [d1| |] eqn:Hins.
    + apply high_water_insert in Hins.
      destruct (IH d1) as (d' & -> & Hle); [lia |].
      exists d'. split; [done | lia].
    + destruct (IH d) as (d' & -> & Hle); [lia |].
      exists d'. split; [done | lia].
    + apply insert_participant_OperationalError_inv in Hins. lia.
Qed.

(** What the outer loop has done when it completes, on distinct names not
    yet in the table. *)
Lemma seed_activities_spec items d d' :
  NoDup items.*1 →
  (∀ k, k ∈ items.*1 → activities d !! k = None) →
  seed_activities items d = Done d' →
  participants d `prefix_of` participants d' ∧
  (∀ k, k ∉ items.*1 → activities d' !! k = activities d !! k) ∧
  (∀ name data, (name, data) ∈ items →
     activities d' !! name =
       Some (Row.Activity (Entry.description data) (Entry.schedule data)
               (Entry.max_participants data)) ∧
     ∀ email, email ∈ Entry.participants data → signed_up name email d') ∧
  (∀ p, p ∈ participants d' →
        p ∈ participants d ∨ Row.activity_name p ∈ items.*1).
Proof.
  revert d. induction items as [|[name data] items IH]; intros d Hnd Hfresh.
  - intros [= <-]. do 2 (split; [done |]).
    split; [by intros ? ? ?%elem_of_nil | by left].
  - simpl in *. apply NoDup_cons in Hnd as [Hname Hnd].
    unfold insert_activity. rewrite (Hfresh name) by left.
    set (row := Row.Activity _ _ _). set (d0 := Db _ _ _).
    destruct (seed_participants name (Entry.participants data) d0)
      as [d1| |] eqn:Hseed; [| done ..].
    apply seed_participants_spec in Hseed as (Hacts & Hpre & Hrows & Hall).
    intros (Hpre' & Hother & Hitems & Hrows')%IH; [| done |].
    2: { intros k Hk. rewrite Hacts. simpl.
         rewrite lookup_insert_ne by (by intros ->). apply Hfresh. by right. }
    split; [by etrans |]. split; [| split].
    + intros k Hk. rewrite Hother, Hacts; simpl.
      * apply lookup_insert_ne. intros ->. apply Hk. left.
      * intros Hin. apply Hk. by right.
    + intros name' data' [[= -> ->] | Hin]%elem_of_cons; [| by apply Hitems].
      split.
      * rewrite Hother, Hacts by done. simpl. apply lookup_insert_eq.
      * intros email Hemail. destruct (Hall email Hemail) as (p & Hp & Hs).
        exists p. split; [| done]. by eapply elem_of_prefix.
    + intros p [[Hp | Hp]%Hrows | Hp]%Hrows'.
      * by left.
      * right. rewrite Hp. left.
      * right. by right.
Qed.

(** The outer loop never ends in a constraint violation. *)
Lemma seed_activities_not_IntegrityError items d :
  NoDup items.*1 →
  (∀ k, k ∈ items.*1 → activities d !! k = None) →
  seed_activities items d ≠ IntegrityError.
Proof.
  revert d. induction items as [|[name data] items IH]; intros d Hnd Hfresh;
    [done |].
  simpl in *. apply NoDup_cons in Hnd as [Hname Hnd].
  unfold insert_activity. rewrite (Hfresh name) by left.
  set (d0 := Db _ _ _).
  destruct (seed_participants name (Entry.participants data) d0)
    as [d1| |] eqn:Hseed; [| | done].
  - apply seed_participants_spec in Hseed as (Hacts & _).
    apply IH; [done |]. intros k Hk. rewrite Hacts. simpl.
    rewrite lookup_insert_ne by (by intros ->). apply Hfresh. by right.
  - by apply seed_participants_not_IntegrityError in Hseed.
Qed.

(** The outer loop completes when the table has a rowid left for every
    participant row of the catalogue. *)
Lemma seed_activities_Done items d :
  NoDup items.*1 →
  (∀ k, k ∈ items.*1 → activities d !! k = None) →
  high_water d + seed_rows items ≤ MAX_ROWID →
  ∃ d', seed_activities items d = Done d'.
Proof.
  revert d. induction items as [|[name data] items IH];
    intros d Hnd Hfresh Hroom; [by exists d |].
  simpl in *. apply NoDup_cons in Hnd as [Hname Hnd].
  unfold insert_activity. rewrite (Hfresh name) by left.
  set (d0 := Db _ _ _).
  assert (0 ≤ seed_rows items) as Hrest.
  { clear. induction items as [|it items IH]; simpl; lia. }
  destruct (seed_participants_Done name (Entry.participants data) d0)
    as (d1 & Hseed & Hle); [unfold high_water in *; simpl; lia |].
  rewrite Hseed.
  apply seed_participants_spec in Hseed as (Hacts & _).
  apply IH; [done | |].
  - intros k Hk. rewrite Hacts. simpl.
    rewrite lookup_insert_ne by (by intros ->). apply Hfresh. by right.
  - unfold high_water in *. simpl in *. lia.
Qed.

Lemma init_db_non_empty f :
  activities (create_tables f) ≠ ∅ → init_db f = Done (create_tables f).
Proof.
  intros Hne. unfold init_db.
  rewrite bool_decide_eq_false_2; [done |].
  apply map_size_non_empty_iff in Hne. lia.
Qed.

Lemma init_db_empty f :
  activities (create_tables f) = ∅ →
  init_db f = seed_activities INITIAL_ACTIVITIES (create_tables f).
Proof.
  intros Hempty. unfold init_db.
  rewrite bool_decide_eq_true_2; [done |]. by rewrite Hempty, map_size_empty.
Qed.

(** When [init_db] completes, table [activities] has a row. *)
Lemma init_db_Done_non_empty f d : init_db f = Done d → activities d ≠ ∅.
Proof.
  destruct (decide (activities (create_tables f) = ∅)) as [Hempty | Hne].
  - rewrite (init_db_empty _ Hempty). intros Hd.
    apply seed_activities_spec in Hd as (_ & _ & Hitems & _).
    + destruct (Hitems "Chess Club"
                  (Entry.Make "Learn strategies and compete in chess tournaments"
                     "Fridays, 3:30 PM - 5:00 PM" (Some 12)
                     ["michael@mergington.edu"; "daniel@mergington.edu"]))
        as [Hrow _]; [left |].
      intros Hd'. by rewrite Hd', lookup_empty in Hrow.
    + apply INITIAL_ACTIVITIES_NoDup.
    + intros k _. by rewrite Hempty, lookup_empty.
  - rewrite init_db_non_empty by done. by intros [= <-].
Qed.

(** [init_db] completes when table [activities] has a row, and when the
    participants table has a rowid left for each of the 18 rows of the
    catalogue. *)
Lemma init_db_Done f :
  activities (create_tables f) ≠ ∅ ∨
  high_water (create_tables f) + 18 ≤ MAX_ROWID →
  ∃ d, init_db f = Done d.
Proof.
  destruct (decide (activities (create_tables f) = ∅)) as [Hempty | Hne].
  - intros [Hne | Hroom]; [done |]. rewrite (init_db_empty _ Hempty).
    apply seed_activities_Done.
    + apply INITIAL_ACTIVITIES_NoDup.
    + intros k _. by rewrite Hempty, lookup_empty.
    + exact Hroom.
  - intros _. exists (create_tables f). by apply init_db_non_empty.
Qed.

Lemma init_db_not_IntegrityError f : init_db f ≠ IntegrityError.
Proof.
  destruct (decide (activities (create_tables f) = ∅)) as [Hempty | Hne].
  - rewrite (init_db_empty _ Hempty).
    apply seed_activities_not_IntegrityError.
    + apply INITIAL_ACTIVITIES_NoDup.
    + intros k _. by rewrite Hempty, lookup_empty.
  - by rewrite init_db_non_empty.
Qed.

Lemma create_tables_persist d : create_tables (persist d) = d.
Proof. by destruct d. Qed.

(** [init_db] reads a file through [create_tables] only. *)
Lemma init_db_create_tables f : init_db (persist (create_tables f)) = init_db f.
Proof. unfold init_db. by rewrite create_tables_persist. Qed.

(** C3: the bootstrap is idempotent.  On a file whose [activities] table
    has a row it only creates the [participants] table if that is missing:
    the activity rows and the participant rows it ends with are the ones
    the file had.  Whenever it completes, run again on what it left it
    changes nothing.  It completes when the participants table has a rowid
    left for each of the 18 rows of the catalogue, and never raises an
    [IntegrityError]; when it raises, the file keeps what [create_tables]
    left, and a second run ends as the first did. *)
Theorem init_db_idempotent :
  (∀ f acts, file_activities f = Some acts → acts ≠ ∅ →
     init_db f =
       Done (Db acts (default [] (fst <$> file_participants f))
               (default 0 (snd <$> file_participants f)))) ∧
  (∀ d, activities d ≠ ∅ → init_db (persist d) = Done d) ∧
  (∀ f d, init_db f = Done d → init_db (persist d) = Done d) ∧
  (∀ f, high_water (create_tables f) + 18 ≤ MAX_ROWID →
        ∃ d, init_db f = Done d) ∧
  (∀ f, init_db f ≠ IntegrityError) ∧
  (∀ f, init_db (persist (create_tables f)) = init_db f).
Proof.
  split; [| split; [| split; [| split; [| split]]]].
  - intros f acts Hf Hne. rewrite init_db_non_empty.
    + unfold create_tables. rewrite Hf. by destruct (file_participants f).
    + unfold create_tables. simpl. by rewrite Hf.
  - intros d Hne. rewrite init_db_non_empty; by rewrite create_tables_persist.
  - intros f d Hd%init_db_Done_non_empty.
    rewrite init_db_non_empty; by rewrite create_tables_persist.
  - intros f Hroom. apply init_db_Done. by right.
  - apply init_db_not_IntegrityError.
  - apply init_db_create_tables.
Qed.

Lemma init_db_idempotent_witness :
  init_db (persist sample_db) = Done sample_db ∧
  init_db (File (Some (activities sample_db)) None) =
    Done (Db (activities sample_db) [] 0) ∧
  ∃ d, init_db (persist orphan_db) = Done d.
Proof.
  destruct init_db_idempotent as (Hfile & Hdb & _ & Hroom & _).
  split; [| split].
  - apply (Hdb sample_db). vm_compute. discriminate.
  - apply (Hfile (File (Some (activities sample_db)) None) (activities sample_db));
      [reflexivity | vm_compute; discriminate].
  - apply (Hroom (persist orphan_db)). vm_compute. discriminate.
Defined.

Lemma signup_for_activity_integrity a e d :
  referential_integrity d → referential_integrity (signup_for_activity a e d).2.
Proof.
  intros Hri.
  destruct (signup_for_activity a e d) as [[body | status detail |] d1] eqn:Hup.
  - apply signup_for_activity_Returns in Hup as ((row & Ha & _) & _ & ->).
    intros p. simpl. intros [Hp | Hp]%elem_of_app; [by apply Hri |].
    apply list_elem_of_singleton in Hp as ->. simpl. by exists row.
  - by apply signup_for_activity_raises in Hup as ->.
  - by apply signup_for_activity_uncaught in Hup as [-> _].
Qed.

Lemma unregister_from_activity_integrity a e d :
  referential_integrity d → referential_integrity (unregister_from_activity a e d).2.
Proof.
  intros Hri. unfold unregister_from_activity.
  repeat case_match; simpl; try done.
  intros q. unfold delete_participant. simpl.
  intros [_ Hq]%list_elem_of_filter. by apply Hri.
Qed.

Lemma init_db_integrity f d :
  referential_integrity (create_tables f) →
  init_db f = Done d → referential_integrity d.
Proof.
  intros Hri.
  destruct (decide (activities (create_tables f) = ∅)) as [Hempty | Hne].
  - rewrite (init_db_empty _ Hempty).
    intros (_ & Hother & Hitems & Hrows)%seed_activities_spec.
    + intros p Hp.
      destruct (Hrows p Hp) as [Hold | ([name data] & -> & Hin)%list_elem_of_fmap].
      * destruct (Hri p Hold) as [row Hrow].
        by rewrite Hempty, lookup_empty in Hrow.
      * destruct (Hitems name data Hin) as [Hrow _]. simpl. by eexists.
    + apply INITIAL_ACTIVITIES_NoDup.
    + intros k _. by rewrite Hempty, lookup_empty.
  - rewrite init_db_non_empty by done. by intros [= <-].
Qed.

Lemma signup_for_activity_inserts_checked a e d :
  participants (signup_for_activity a e d).2 ≠ participants d →
  is_Some (activities d !! a).
Proof.
  destruct (signup_for_activity a e d) as [[body | status detail |] d1] eqn:Hup.
  - apply signup_for_activity_Returns in Hup as ((row & Ha & _) & _). by exists row.
  - by apply signup_for_activity_raises in Hup as ->.
  - by apply signup_for_activity_uncaught in Hup as [-> _].
Qed.

(** C8: referential integrity is preserved by every operation.  From a
    state in which every participant row names a row of [activities], the
    bootstrap, when it completes, ends in such a state, and it completes
    when [activities] has a row or the participants table has a rowid
    left for each of the 18 rows of the catalogue (when it raises, the
    file keeps what [create_tables] left); listing changes nothing, and
    sign-up and unregister end in such a state; a sign-up changes the
    participants table only when the named activity exists. *)
Theorem referential_integrity_preserved :
  (∀ f, referential_integrity (create_tables f) →
        (∀ d, init_db f = Done d → referential_integrity d) ∧
        (activities (create_tables f) ≠ ∅ ∨
         high_water (create_tables f) + 18 ≤ MAX_ROWID →
         ∃ d, init_db f = Done d ∧ referential_integrity d)) ∧
  (∀ d, referential_integrity d → referential_integrity (get_activities d).2) ∧
  (∀ a e d, referential_integrity d →
            referential_integrity (signup_for_activity a e d).2) ∧
  (∀ a e d, referential_integrity d →
            referential_integrity (unregister_from_activity a e d).2) ∧
  (∀ a e d, participants (signup_for_activity a e d).2 ≠ participants d →
            is_Some (activities d !! a)).
Proof.
  split.
  { intros f Hri. split; [intros d; by apply init_db_integrity |].
    intros [d Hd]%init_db_Done. exists d. split; [done |].
    by eapply init_db_integrity. }
  split; [done |].
  split; [apply signup_for_activity_integrity |].
  split; [apply unregister_from_activity_integrity |].
  apply signup_for_activity_inserts_checked.
Qed.

Lemma referential_integrity_preserved_witness :
  referential_integrity sample_db ∧
  (∃ d, init_db (File None None) = Done d ∧ referential_integrity d) ∧
  referential_integrity
    (signup_for_activity "Chess Club" "x@mergington.edu" sample_db).2 ∧
  referential_integrity
    (unregister_from_activity "Chess Club" "michael@mergington.edu" sample_db).2.
Proof.
  assert (referential_integrity sample_db) as Hri.
  { intros p Hp. unfold sample_db in Hp. simpl in Hp.
    repeat (apply elem_of_cons in Hp as [-> | Hp]);
      [vm_compute; eauto .. | by apply elem_of_nil in Hp]. }
  destruct referential_integrity_preserved as (Hinit & _ & Hup & Hun & _).
  split; [exact Hri |]. split; [| split].
  - apply (Hinit (File None None)).
    + clear. intros p Hp. apply elem_of_nil in Hp. destruct Hp.
    + right. vm_compute. discriminate.
  - by apply (Hup "Chess Club" "x@mergington.edu" sample_db).
  - by apply (Hun "Chess Club" "michael@mergington.edu" sample_db).
Defined.

(** The catalogue on a new file: "Chess Club" has 12 seats and its two
    initial participants, and takes a third. *)
Example init_db_new_file :
  ∃ d, init_db (File None None) = Done d ∧
       Row.max_participants <$> activities d !! "Chess Club" = Some (Some 12) ∧
       emails_of "Chess Club" (participants d) =
         ["michael@mergington.edu"; "daniel@mergington.edu"] ∧
       (signup_for_activity "Chess Club" "x@mergington.edu" d).1 =
         Returns (Message "Signed up x@mergington.edu for Chess Club") ∧
       count_participants "Chess Club"
         (signup_for_activity "Chess Club" "x@mergington.edu" d).2 = 3.
Proof. eexists. split; [by vm_compute |]. by vm_compute. Qed.
End bootstrap.

(** * Further properties of the handlers *)

(** ** What an outcome tells *)

Section outcomes.
Implicit Types (a e : string) (d : db) (p : Row.participant).

(** What a successful unregister has checked and done. *)
Lemma unregister_from_activity_Returns a e d body d1 :
  unregister_from_activity a e d = (Returns body, d1) →
  is_Some (activities d !! a) ∧
  body = Message ("Unregistered " +:+ e +:+ " from " +:+ a) ∧
  ∃ p, select_signup a e d = Some p ∧ d1 = delete_participant (Row.id p) d.
Proof.
  unfold unregister_from_activity.
  destruct (activities d !! a) as [row|]; [| done].
  destruct (select_signup a e d) as [p|]; [| done].
  intros [= <- <-]. split; [by eexists |]. split; [done |]. by exists p.
Qed.

(** X1: a sign-up that fails tells the truth and changes nothing.  The
    database is the one before the request.  An [HTTPException] is 404
    "Activity not found" with no activity of that name, or 400 "Student is
    already signed up" with the activity and the pair both present, or 400
    "Activity is full" with the activity present, the pair absent and the
    count at or above a non-null capacity.  The one other failure is the
    [sqlite3.OperationalError] that the handler does not catch: it occurs
    with the activity present, the pair absent and room in the activity,
    when the participants table has no rowid left. *)
Theorem signup_for_activity_exceptions a e d :
  (∀ status detail d1,
     signup_for_activity a e d = (HTTPException status detail, d1) →
     d1 = d ∧
     ((status = 404 ∧ detail = "Activity not found" ∧ activities d !! a = None) ∨
      (status = 400 ∧ detail = "Student is already signed up" ∧
       is_Some (activities d !! a) ∧ signed_up a e d) ∨
      (status = 400 ∧ detail = "Activity is full" ∧ ¬ signed_up a e d ∧
       ∃ row m, activities d !! a = Some row ∧
                Row.max_participants row = Some m ∧
                m ≤ count_participants a d))) ∧
  (∀ d1,
     signup_for_activity a e d = (UncaughtOperationalError, d1) →
     d1 = d ∧ MAX_ROWID ≤ high_water d ∧ ¬ signed_up a e d ∧
     ∃ row, activities d !! a = Some row ∧
            ∀ m, Row.max_participants row = Some m → count_participants a d < m).
Proof.
  split; [| intros d1; apply signup_for_activity_uncaught].
  intros status detail d1. unfold signup_for_activity.
  destruct (activities d !! a) as [row|] eqn:Ha.
  - destruct (select_signup a e d) as [p|] eqn:Hsel.
    + intros [= <- <- <-]. split; [done |]. right. left.
      do 3 (split; [done |]).
      apply select_signup_Some in Hsel as [Hp Hs]. by exists p.
    + apply select_signup_None in Hsel.
      assert (insert_participant a e d ≠ IntegrityError) as Hins
        by (by intros Hs%insert_participant_IntegrityError_inv).
      destruct (Row.max_participants row) as [m|] eqn:Hmax.
      * case_bool_decide as Hm.
        -- intros [= <- <- <-]. split; [done |]. right. right.
           do 3 (split; [done |]). exists row, m. repeat split; [done | lia].
        -- by destruct (insert_participant a e d).
      * by destruct (insert_participant a e d).
  - intros [= <- <- <-]. split; [done |]. by left.
Qed.

Lemma signup_for_activity_exceptions_witness :
  (signup_for_activity "Tiny Club" "x@mergington.edu" sample_db =
     (HTTPException 400 "Activity is full", sample_db) ∧
   ∃ row m, activities sample_db !! "Tiny Club" = Some row ∧
            Row.max_participants row = Some m ∧
            m ≤ count_participants "Tiny Club" sample_db) ∧
  (signup_for_activity "Chess Club" "x@mergington.edu" ceiling_db =
     (UncaughtOperationalError, ceiling_db) ∧
   MAX_ROWID ≤ high_water ceiling_db).
Proof.
  assert (signup_for_activity "Tiny Club" "x@mergington.edu" sample_db =
            (HTTPException 400 "Activity is full", sample_db)) as Hfull
    by (vm_compute; reflexivity).
  assert (signup_for_activity "Chess Club" "x@mergington.edu" ceiling_db =
            (UncaughtOperationalError, ceiling_db)) as Herr
    by (vm_compute; reflexivity).
  split; (split; [done |]).
  - destruct (proj1 (signup_for_activity_exceptions _ _ _) _ _ _ Hfull)
      as [_ [(_ & Hd & _) | [(_ & Hd & _) | (_ & _ & _ & Hrow)]]];
      [discriminate Hd | discriminate Hd | exact Hrow].
  - by destruct (proj2 (signup_for_activity_exceptions _ _ _) _ Herr)
      as (_ & Hge & _).
Defined.

(** X2: an exception raised by an unregister tells the truth and changes
    nothing.  The database is the one before the request, and the
    exception is 404 "Activity not found" with no activity of that name,
    or 400 "Student is not signed up for this activity" with the activity
    present and the pair absent.  No other status or message is raised. *)
Theorem unregister_from_activity_exceptions a e d status detail d1 :
  unregister_from_activity a e d = (HTTPException status detail, d1) →
  d1 = d ∧
  ((status = 404 ∧ detail = "Activity not found" ∧ activities d !! a = None) ∨
   (status = 400 ∧ detail = "Student is not signed up for this activity" ∧
    is_Some (activities d !! a) ∧ ¬ signed_up a e d)).
Proof.
  unfold unregister_from_activity.
  destruct (activities d !! a) as [row|] eqn:Ha.
  - destruct (select_signup a e d) as [p|] eqn:Hsel; [done |].
    intros [= <- <- <-]. split; [done |]. right.
    do 3 (split; [done |]). by apply select_signup_None.
  - intros [= <- <- <-]. split; [done |]. by left.
Qed.

Lemma unregister_from_activity_exceptions_witness :
  unregister_from_activity "Chess Club" "x@mergington.edu" sample_db =
    (HTTPException 400 "Student is not signed up for this activity", sample_db) ∧
  ¬ signed_up "Chess Club" "x@mergington.edu" sample_db.
Proof.
  assert (unregister_from_activity "Chess Club" "x@mergington.edu" sample_db =
            (HTTPException 400 "Student is not signed up for this activity",
             sample_db)) as Hno by (vm_compute; reflexivity).
  split; [exact Hno |].
  destruct (unregister_from_activity_exceptions _ _ _ _ _ _ Hno)
    as [_ [(Hs & _) | (_ & _ & _ & Hs)]]; [discriminate Hs | exact Hs].
Defined.
End outcomes.

(** ** What a successful unregister does *)

Section unregister_effects.
Implicit Types (a e k : string) (d : db) (p q : Row.participant)
  (rows : list Row.participant).

(** The row [fetchone()] returns is the first one of the pair. *)
Lemma select_signup_split a e d p :
  select_signup a e d = Some p →
  ∃ l1 l2, participants d = l1 ++ p :: l2 ∧ is_signup a e p ∧
           Forall (λ q, ¬ is_signup a e q) l1.
Proof.
  unfold select_signup.
  induction (participants d) as [|q rows IH]; simpl; [done |].
  case_bool_decide as Hq.
  - intros [= ->]. by exists [], rows.
  - intros (l1 & l2 & -> & Hp & Hl1)%IH.
    exists (q :: l1), l2. split; [done |]. split; [done |]. by constructor.
Qed.

Lemma filter_all {A} (P : A → Prop) `{!∀ x, Decision (P x)} (l : list A) :
  Forall P l → filter P l = l.
Proof.
  induction 1 as [|x l Hx _ IH]; [done |].
  by rewrite filter_cons_True, IH.
Qed.

(** With distinct rowids, deleting by the rowid of a row removes that row
    and nothing else. *)
Lemma delete_by_rowid l1 p l2 :
  NoDup (Row.id <$> l1 ++ p :: l2) →
  filter (λ q, Row.id q ≠ Row.id p) (l1 ++ p :: l2) = l1 ++ l2.
Proof.
  rewrite fmap_app, fmap_cons.
  intros (Hl1 & Hdisj & [Hp Hl2]%NoDup_cons)%NoDup_app.
  rewrite filter_app, filter_cons_False by (intros Hne; by apply Hne).
  rewrite !filter_all; [done | |].
  - apply Forall_forall. intros q Hq Heq. apply Hp. rewrite <- Heq.
    apply list_elem_of_fmap. by exists q.
  - apply Forall_forall. intros q Hq Heq. apply (Hdisj (Row.id q)).
    + apply list_elem_of_fmap. by exists q.
    + rewrite Heq. left.
Qed.

Lemma emails_of_app k rows1 rows2 :
  emails_of k (rows1 ++ rows2) = emails_of k rows1 ++ emails_of k rows2.
Proof. unfold emails_of. by rewrite filter_app, fmap_app. Qed.

Lemma emails_of_other k p rows1 rows2 :
  Row.activity_name p ≠ k →
  emails_of k (rows1 ++ p :: rows2) = emails_of k (rows1 ++ rows2).
Proof.
  intros Hne. unfold emails_of. by rewrite !filter_app, filter_cons_False.
Qed.

(** Rows before the first row of a pair do not list its e-mail under its
    activity. *)
Lemma emails_of_not_signup a e rows :
  Forall (λ q, ¬ is_signup a e q) rows → e ∉ emails_of a rows.
Proof.
  intros Hrows (q & -> & [Hq Hin]%list_elem_of_filter)%list_elem_of_fmap.
  rewrite Forall_forall in Hrows. by apply (Hrows q).
Qed.

(** Rows sharing the key of a unique index are the same row. *)
Lemma NoDup_fmap_elem_of {A B} (f : A → B) (l : list A) x y :
  NoDup (f <$> l) → x ∈ l → y ∈ l → f x = f y → x = y.
Proof.
  induction l as [|z l IH]; [by intros _ ?%elem_of_nil |].
  rewrite fmap_cons. intros [Hz Hnd]%NoDup_cons.
  intros [-> | Hx]%elem_of_cons [-> | Hy]%elem_of_cons Hf; [done | | | by apply IH].
  - destruct Hz. rewrite Hf. apply list_elem_of_fmap. by exists y.
  - destruct Hz. rewrite <- Hf. apply list_elem_of_fmap. by exists x.
Qed.

(** X3: with distinct rowids, an unregister of a registered pair of an
    existing activity returns "Unregistered <email> from <activity>" and
    deletes one row: the first row of the pair.  The other rows keep their
    order, table [activities] and [sqlite_sequence] are untouched, and the
    count of the activity drops by one. *)
Theorem unregister_from_activity_deletes_one a e d :
  unique_rowids d →
  is_Some (activities d !! a) →
  signed_up a e d →
  ∃ l1 p l2,
    participants d = l1 ++ p :: l2 ∧
    is_signup a e p ∧
    Forall (λ q, ¬ is_signup a e q) l1 ∧
    unregister_from_activity a e d =
      (Returns (Message ("Unregistered " +:+ e +:+ " from " +:+ a)),
       Db (activities d) (l1 ++ l2) (sqlite_sequence d)) ∧
    count_participants a (unregister_from_activity a e d).2 =
      count_participants a d - 1.
Proof.
  unfold unique_rowids.
  intros Hids [row Ha] [p Hsel]%select_signup_is_Some.
  destruct (select_signup_split _ _ _ _ Hsel) as (l1 & l2 & Hsplit & Hp & Hl1).
  exists l1, p, l2. do 3 (split; [done |]).
  unfold unregister_from_activity. rewrite Ha, Hsel.
  unfold delete_participant, count_participants. simpl.
  rewrite Hsplit in *. rewrite (delete_by_rowid _ _ _ Hids).
  split; [done |].
  rewrite !filter_app, filter_cons_True by apply Hp.
  rewrite !length_app. simpl. lia.
Qed.

Lemma unregister_from_activity_deletes_one_witness :
  ∃ l1 p l2,
    participants sample_db = l1 ++ p :: l2 ∧
    is_signup "Tiny Club" "john@mergington.edu" p ∧
    Forall (λ q, ¬ is_signup "Tiny Club" "john@mergington.edu" q) l1 ∧
    unregister_from_activity "Tiny Club" "john@mergington.edu" sample_db =
      (Returns (Message "Unregistered john@mergington.edu from Tiny Club"),
       Db (activities sample_db) (l1 ++ l2) (sqlite_sequence sample_db)) ∧
    count_participants "Tiny Club"
      (unregister_from_activity "Tiny Club" "john@mergington.edu" sample_db).2 =
      count_participants "Tiny Club" sample_db - 1.
Proof.
  apply (unregister_from_activity_deletes_one
           "Tiny Club" "john@mergington.edu" sample_db).
  - unfold unique_rowids. apply (bool_decide_unpack _). by vm_compute.
  - vm_compute. eauto.
  - exists (Row.Participant 4 "Tiny Club" "john@mergington.edu").
    split; [| done]. unfold sample_db. simpl. do 2 right. left.
Defined.

(** X4: with unique pairs, a successful unregister leaves no record of
    the pair, so the same unregister sent again raises 400 "Student is not
    signed up for this activity" and changes nothing. *)
Theorem unregister_twice_rejected a e d body d1 :
  unique_signups d →
  unregister_from_activity a e d = (Returns body, d1) →
  ¬ signed_up a e d1 ∧
  unregister_from_activity a e d1 =
    (HTTPException 400 "Student is not signed up for this activity", d1).
Proof.
  unfold unique_signups.
  intros Hkeys (Ha & _ & p & Hsel & ->)%unregister_from_activity_Returns.
  apply select_signup_Some in Hsel as [Hp [Hpa Hpe]].
  assert (¬ signed_up a e (delete_participant (Row.id p) d)) as Hgone.
  { intros (q & [Hne Hq]%list_elem_of_filter & [Hqa Hqe]).
    apply Hne. f_equal.
    apply (NoDup_fmap_elem_of signup_key (participants d)); [done .. |].
    unfold signup_key. congruence. }
  split; [exact Hgone |].
  unfold unregister_from_activity. simpl.
  destruct Ha as [row ->]. by apply select_signup_None in Hgone as ->.
Qed.

Lemma unregister_twice_rejected_witness :
  ∃ d1,
    unregister_from_activity "Tiny Club" "john@mergington.edu" sample_db =
      (Returns (Message "Unregistered john@mergington.edu from Tiny Club"), d1) ∧
    unregister_from_activity "Tiny Club" "john@mergington.edu" d1 =
      (HTTPException 400 "Student is not signed up for this activity", d1).
Proof.
  eexists. split; [vm_compute; reflexivity |].
  eapply (unregister_twice_rejected "Tiny Club" "john@mergington.edu" sample_db).
  - unfold unique_signups. apply (bool_decide_unpack _). by vm_compute.
  - vm_compute. reflexivity.
Defined.
End unregister_effects.

(** ** Requests seen through the listing *)

Section listed.
Implicit Types (a e k : string) (d : db) (p q : Row.participant)
  (rows : list Row.participant).

(** With distinct rowids, what a successful unregister leaves. *)
Lemma unregister_from_activity_split a e d body d1 :
  unique_rowids d →
  unregister_from_activity a e d = (Returns body, d1) →
  ∃ row l1 p l2,
    activities d !! a = Some row ∧
    participants d = l1 ++ p :: l2 ∧
    is_signup a e p ∧
    Forall (λ q, ¬ is_signup a e q) l1 ∧
    d1 = Db (activities d) (l1 ++ l2) (sqlite_sequence d).
Proof.
  unfold unique_rowids.
  intros Hids ([row Ha] & _ & p & Hsel & ->)%unregister_from_activity_Returns.
  destruct (select_signup_split _ _ _ _ Hsel) as (l1 & l2 & Hsplit & Hp & Hl1).
  exists row, l1, p, l2. do 4 (split; [done |]).
  unfold delete_participant. rewrite Hsplit in *.
  by rewrite (delete_by_rowid _ _ _ Hids).
Qed.

(** X5: after a successful sign-up the listing shows the student last in
    the participant list of the activity; the other fields of that entry
    and the entries of all other activities are as before. *)
Theorem signup_for_activity_listed a e d body d1 :
  signup_for_activity a e d = (Returns body, d1) →
  ∃ res res1,
    get_activities d = (Returns res, d) ∧
    get_activities d1 = (Returns res1, d1) ∧
    is_Some (res !! a) ∧
    res1 !! a = append_participant e <$> res !! a ∧
    ∀ k, k ≠ a → res1 !! k = res !! k.
Proof.
  intros ((row & Ha & _) & _ & ->)%signup_for_activity_Returns.
  eexists _, _. do 2 (split; [reflexivity |]). simpl.
  split; [by rewrite assembled_lookup, Ha; eexists |]. split.
  - rewrite !assembled_lookup, emails_of_app, Ha. simpl.
    unfold emails_of at 2. by rewrite filter_cons_True.
  - intros k Hk. rewrite !assembled_lookup, emails_of_app.
    unfold emails_of at 2. rewrite filter_cons_False by (simpl; congruence).
    simpl. by rewrite app_nil_r.
Qed.

Lemma signup_for_activity_listed_witness :
  ∃ body d1 res res1,
    signup_for_activity "Chess Club" "x@mergington.edu" sample_db = (Returns body, d1) ∧
    get_activities sample_db = (Returns res, sample_db) ∧
    get_activities d1 = (Returns res1, d1) ∧
    res1 !! "Chess Club" = append_participant "x@mergington.edu" <$> res !! "Chess Club".
Proof.
  assert (signup_for_activity "Chess Club" "x@mergington.edu" sample_db =
            (Returns (Message "Signed up x@mergington.edu for Chess Club"),
             Db (activities sample_db)
                (participants sample_db ++
                   [Row.Participant 8 "Chess Club" "x@mergington.edu"]) 8)) as Hup
    by (vm_compute; reflexivity).
  destruct (signup_for_activity_listed _ _ _ _ _ Hup)
    as (res & res1 & Hres & Hres1 & _ & Ha & _).
  eexists _, _, res, res1. split; [exact Hup |]. by repeat split.
Defined.

(** X6: with distinct rowids, after a successful unregister the listing
    shows the participant list of the activity without the first
    occurrence of the e-mail, the rest in the same order; the other fields
    of that entry and the entries of all other activities are as
    before. *)
Theorem unregister_from_activity_listed a e d body d1 :
  unique_rowids d →
  unregister_from_activity a e d = (Returns body, d1) →
  ∃ res res1 row l1 l2,
    get_activities d = (Returns res, d) ∧
    get_activities d1 = (Returns res1, d1) ∧
    res !! a = Some (entry_of_row row (l1 ++ e :: l2)) ∧
    (e ∉ l1) ∧
    res1 !! a = Some (entry_of_row row (l1 ++ l2)) ∧
    ∀ k, k ≠ a → res1 !! k = res !! k.
Proof.
  intros Hids Hun.
  destruct (unregister_from_activity_split _ _ _ _ _ Hids Hun)
    as (row & L1 & p & L2 & Ha & Hsplit & [Hpa Hpe] & HL1 & ->).
  exists (foldl load_participant
            (build_activity_dict (map_to_list (activities d))) (participants d)).
  eexists. exists row, (emails_of a L1), (emails_of a L2).
  do 2 (split; [reflexivity |]). simpl. rewrite Hsplit. split; [| split; [| split]].
  - rewrite assembled_lookup, Ha, emails_of_app, emails_of_cons.
    rewrite decide_True by done. by rewrite Hpe.
  - by apply emails_of_not_signup.
  - by rewrite assembled_lookup, Ha, emails_of_app.
  - intros k Hk. rewrite !assembled_lookup.
    rewrite emails_of_other by congruence. done.
Qed.

Lemma unregister_from_activity_listed_witness :
  ∃ d1 res res1 row l1 l2,
    unregister_from_activity "Tiny Club" "john@mergington.edu" sample_db =
      (Returns (Message "Unregistered john@mergington.edu from Tiny Club"), d1) ∧
    get_activities sample_db = (Returns res, sample_db) ∧
    get_activities d1 = (Returns res1, d1) ∧
    res !! "Tiny Club" = Some (entry_of_row row (l1 ++ "john@mergington.edu" :: l2)) ∧
    res1 !! "Tiny Club" = Some (entry_of_row row (l1 ++ l2)).
Proof.
  assert (unique_rowids sample_db) as Hids.
  { unfold unique_rowids. apply (bool_decide_unpack _). by vm_compute. }
  assert (∃ d1, unregister_from_activity "Tiny Club" "john@mergington.edu" sample_db =
            (Returns (Message "Unregistered john@mergington.edu from Tiny Club"), d1))
    as [d1 Hun] by (eexists; vm_compute; reflexivity).
  destruct (unregister_from_activity_listed _ _ _ _ _ Hids Hun)
    as (res & res1 & row & l1 & l2 & Hres & Hres1 & Ha & _ & Ha1 & _).
  exists d1, res, res1, row, l1, l2. by repeat split.
Defined.

Lemma length_filter_filter_lt {A} (P Q : A → Prop)
    `{!∀ x, Decision (P x)} `{!∀ x, Decision (Q x)} (l : list A) x :
  x ∈ l → P x → ¬ Q x →
  (length (filter P (filter Q l)) < length (filter P l))%nat.
Proof.
  intros Hx HP HQ. induction l as [|y l IH]; [by apply elem_of_nil in Hx |].
  apply elem_of_cons in Hx as [<- | Hx].
  - rewrite (filter_cons_False Q), (filter_cons_True P) by done. simpl.
    pose proof (length_filter_filter P Q l). lia.
  - specialize (IH Hx). rewrite (filter_cons Q), (filter_cons P).
    destruct (decide (Q y)), (decide (P y));
      rewrite ?filter_cons_True, ?filter_cons_False by done; simpl; lia.
Qed.

(** Deleting a row of an activity lowers its count. *)
Lemma count_participants_delete_lt a p d :
  p ∈ participants d → Row.activity_name p = a →
  count_participants a (delete_participant (Row.id p) d) < count_participants a d.
Proof.
  intros Hp Ha. unfold count_participants, delete_participant. simpl.
  apply Nat2Z.inj_lt, (length_filter_filter_lt _ _ _ p); [done .. |].
  intros Hne. by apply Hne.
Qed.

Lemma delete_participant_not_signed_up a e i d :
  ¬ signed_up a e d → ¬ signed_up a e (delete_participant i d).
Proof.
  intros Hs (q & [_ Hq]%list_elem_of_filter & Hqs). apply Hs. by exists q.
Qed.

Lemma largest_rowid_le (rows : list Row.participant) b :
  0 ≤ b → (∀ q, q ∈ rows → Row.id q ≤ b) → largest_rowid rows ≤ b.
Proof.
  intros Hb Hrows. destruct rows as [|p rows]; [done |]. simpl.
  assert (Row.id p ≤ b) as Hp by (apply Hrows; left).
  assert (∀ q, q ∈ rows → Row.id q ≤ b) as Hrest
    by (intros q Hq; apply Hrows; by right).
  clear Hrows. induction rows as [|q rows IH]; simpl; [done |].
  assert (Row.id q ≤ b) by (apply Hrest; left).
  assert (foldr (λ q m, Z.max (Row.id q) m) (Row.id p) rows ≤ b)
    by (apply IH; intros r Hr; apply Hrest; by right).
  lia.
Qed.

(** A delete leaves [sqlite_sequence] alone: it gives no rowid back. *)
Lemma delete_participant_rowid_left i d :
  high_water d < MAX_ROWID → high_water (delete_participant i d) < MAX_ROWID.
Proof.
  unfold high_water, delete_participant. simpl. intros Hlt.
  assert (largest_rowid (filter (λ q, Row.id q ≠ i) (participants d)) ≤
            Z.max 0 (largest_rowid (participants d))) as Hle.
  { apply largest_rowid_le; [lia |].
    intros q [_ Hq%largest_rowid_ge]%list_elem_of_filter. lia. }
  unfold MAX_ROWID in *. lia.
Qed.

(** X7: an unregister frees a seat.  In an activity that holds at most
    its capacity, also when it is full, and with a rowid left in the
    participants table, once an unregister has succeeded a sign-up of a
    student who was not registered succeeds. *)
Theorem unregister_frees_seat a e e' d row m body d1 :
  activities d !! a = Some row →
  Row.max_participants row = Some m →
  count_participants a d ≤ m →
  high_water d < MAX_ROWID →
  ¬ signed_up a e d →
  unregister_from_activity a e' d = (Returns body, d1) →
  signup_for_activity a e d1 =
    (Returns (Message ("Signed up " +:+ e +:+ " for " +:+ a)),
     Db (activities d1)
        (participants d1 ++ [Row.Participant (high_water d1 + 1) a e])
        (high_water d1 + 1)).
Proof.
  intros Ha Hmax Hle Hlt Hs
    (_ & _ & p & Hsel & ->)%unregister_from_activity_Returns.
  apply select_signup_Some in Hsel as [Hp [Hpa _]].
  apply (signup_for_activity_inserts _ _ _ row); [done | | |].
  - by apply delete_participant_not_signed_up.
  - right. exists m. split; [done |].
    pose proof (count_participants_delete_lt a p d Hp Hpa). lia.
  - by apply delete_participant_rowid_left.
Qed.

Lemma unregister_frees_seat_witness :
  signup_for_activity "Tiny Club" "x@mergington.edu" sample_db =
    (HTTPException 400 "Activity is full", sample_db) ∧
  ∃ d1 d2,
    unregister_from_activity "Tiny Club" "john@mergington.edu" sample_db =
      (Returns (Message "Unregistered john@mergington.edu from Tiny Club"), d1) ∧
    signup_for_activity "Tiny Club" "x@mergington.edu" d1 =
      (Returns (Message "Signed up x@mergington.edu for Tiny Club"), d2).
Proof.
  split; [vm_compute; reflexivity |].
  eexists _, _. split; [vm_compute; reflexivity |].
  eapply (unregister_frees_seat "Tiny Club" "x@mergington.edu"
            "john@mergington.edu" sample_db
            (Row.Activity "Two seats" "Mondays" (Some 2)) 2).
  - vm_compute. reflexivity.
  - reflexivity.
  - vm_compute. discriminate.
  - vm_compute. reflexivity.
  - apply select_signup_None. vm_compute. reflexivity.
  - vm_compute. reflexivity.
Defined.
End listed.

(** ** The schema constraints as invariants *)

Section constraints.
Implicit Types (a e k : string) (d : db) (p q : Row.participant)
  (rows : list Row.participant).

Lemma NoDup_fmap_filter {A B} (f : A → B) (P : A → Prop)
    `{!∀ x, Decision (P x)} (l : list A) :
  NoDup (f <$> l) → NoDup (f <$> filter P l).
Proof.
  intros Hnd. eapply sublist_NoDup; [exact Hnd |].
  apply fmap_sublist, sublist_filter.
Qed.

Lemma insert_participant_unique a e d d' :
  insert_participant a e d = Done d' →
  (unique_rowids d → unique_rowids d') ∧
  (unique_signups d → unique_signups d').
Proof.
  intros (_ & Hs & ->)%insert_participant_Done_inv.
  unfold unique_rowids, unique_signups. simpl.
  rewrite !fmap_app. simpl. split; intros Hnd.
  - apply NoDup_app. split; [done |]. split; [| apply NoDup_singleton].
    intros i (q & -> & Hq)%list_elem_of_fmap Hi%list_elem_of_singleton.
    pose proof (high_water_fresh d q Hq). lia.
  - apply NoDup_app. split; [done |]. split; [| apply NoDup_singleton].
    intros key (q & -> & Hq)%list_elem_of_fmap [= Hqa Hqe]%list_elem_of_singleton.
    apply Hs. by exists q.
Qed.

Lemma delete_participant_unique i d :
  (unique_rowids d → unique_rowids (delete_participant i d)) ∧
  (unique_signups d → unique_signups (delete_participant i d)).
Proof.
  unfold unique_rowids, unique_signups, delete_participant. simpl.
  split; apply NoDup_fmap_filter.
Qed.

Lemma serve_unique r d :
  (unique_rowids d → unique_rowids (serve d r)) ∧
  (unique_signups d → unique_signups (serve d r)).
Proof.
  destruct r as [a e | a e]; simpl.
  - destruct (signup_for_activity a e d) as [[body | status detail |] d1] eqn:Hup.
    + pose proof (signup_for_activity_Returns_rowid _ _ _ _ _ Hup) as Hlt.
      apply signup_for_activity_Returns in Hup as (_ & Hs & ->).
      apply (insert_participant_unique a e). by apply insert_participant_Done.
    + by apply signup_for_activity_raises in Hup as ->.
    + by apply signup_for_activity_uncaught in Hup as [-> _].
  - unfold unregister_from_activity. repeat case_match; simpl; try done.
    apply delete_participant_unique.
Qed.

Lemma seed_participants_unique name emails d d' :
  seed_participants name emails d = Done d' →
  (unique_rowids d → unique_rowids d') ∧
  (unique_signups d → unique_signups d').
Proof.
  revert d. induction emails as [|email emails IH]; intros d; simpl.
  - by intros [= <-].
  - destruct (insert_participant name email d) as [d1| |] eqn:Hins;
      [| apply IH | done].
    destruct (insert_participant_unique _ _ _ _ Hins) as [Hids Hkeys].
    intros [Hids' Hkeys']%IH. split; auto.
Qed.

Lemma seed_activities_unique items d d' :
  seed_activities items d = Done d' →
  (unique_rowids d → unique_rowids d') ∧
  (unique_signups d → unique_signups d').
Proof.
  revert d. induction items as [|[name data] items IH]; intros d; simpl.
  - by intros [= <-].
  - unfold insert_activity. destruct (activities d !! name); [done |].
    destruct (seed_participants name (Entry.participants data) _)
      as [d1| |] eqn:Hseed; [| done ..].
    apply seed_participants_unique in Hseed as [Hids Hkeys].
    intros [Hids' Hkeys']%IH. split; auto.
Qed.

(** X8: the constraints of table [participants] are invariants of the
    application.  If no two rows share a rowid, respectively a pair
    (activity_name, email), before the bootstrap or before a sequence of
    sign-up and unregister requests, then none do after it: a student is
    never registered twice for an activity. *)
Theorem schema_constraints_preserved :
  (∀ f d, init_db f = Done d →
          (unique_rowids (create_tables f) → unique_rowids d) ∧
          (unique_signups (create_tables f) → unique_signups d)) ∧
  (∀ rs d, (unique_rowids d → unique_rowids (serve_all rs d)) ∧
           (unique_signups d → unique_signups (serve_all rs d))).
Proof.
  split.
  - intros f d. unfold init_db. case_bool_decide.
    + apply seed_activities_unique.
    + by intros [= <-].
  - unfold serve_all. intros rs. induction rs as [|r rs IH]; intros d; [done |].
    simpl. destruct (serve_unique r d) as [Hids Hkeys].
    destruct (IH (serve d r)) as [Hids' Hkeys']. split; auto.
Qed.

Lemma schema_constraints_preserved_witness :
  unique_signups sample_db ∧
  unique_signups
    (serve_all [ SignUp "Chess Club" "x@mergington.edu";
                 SignUp "Chess Club" "x@mergington.edu";
                 Unregister "Tiny Club" "emma@mergington.edu";
                 SignUp "Open Club" "x@mergington.edu" ] sample_db).
Proof.
  assert (unique_signups sample_db) as Hkeys.
  { unfold unique_signups. apply (bool_decide_unpack _). by vm_compute. }
  split; [exact Hkeys |].
  destruct schema_constraints_preserved as [_ Hserve].
  by apply Hserve.
Defined.

Lemma emails_of_NoDup k rows :
  NoDup (signup_key <$> rows) → NoDup (emails_of k rows).
Proof.
  induction rows as [|p rows IH]; [intros _; apply NoDup_nil_2 |].
  rewrite fmap_cons, emails_of_cons. intros [Hp Hnd]%NoDup_cons.
  case_decide as Hk; [| by apply IH].
  apply NoDup_cons. split; [| by apply IH].
  intros (q & Hqe & [Hqa Hq]%list_elem_of_filter)%list_elem_of_fmap.
  apply Hp, list_elem_of_fmap. exists q. split; [| done].
  unfold signup_key. congruence.
Qed.

(** X9: with unique pairs, the listing names no student twice under one
    activity. *)
Theorem get_activities_no_duplicates d :
  unique_signups d →
  ∃ res, get_activities d = (Returns res, d) ∧
         ∀ k en, res !! k = Some en → NoDup (Entry.participants en).
Proof.
  intros Hkeys. eexists. split; [reflexivity |].
  intros k en. rewrite assembled_lookup.
  intros (row & _ & ->)%fmap_Some. simpl. by apply emails_of_NoDup.
Qed.

Lemma get_activities_no_duplicates_witness :
  ∃ res, get_activities sample_db = (Returns res, sample_db) ∧
         ∀ k en, res !! k = Some en → NoDup (Entry.participants en).
Proof.
  apply (get_activities_no_duplicates sample_db).
  unfold unique_signups. apply (bool_decide_unpack _). by vm_compute.
Defined.
End constraints.

(** ** Unregister followed by sign-up *)

Section again.
Implicit Types (a e k : string) (d : db) (p q : Row.participant).

(** With unique pairs, deleting the row of a pair leaves none of it. *)
Lemma delete_participant_signup_gone a e p d :
  unique_signups d → p ∈ participants d → is_signup a e p →
  ¬ signed_up a e (delete_participant (Row.id p) d).
Proof.
  unfold unique_signups.
  intros Hkeys Hp [Hpa Hpe] (q & [Hne Hq]%list_elem_of_filter & [Hqa Hqe]).
  apply Hne. f_equal.
  apply (NoDup_fmap_elem_of signup_key (participants d)); [done .. |].
  unfold signup_key. congruence.
Qed.

(** X10: with unique pairs, in an activity that holds at most its
    capacity (or has none), and with a rowid left in the participants
    table, a student who has just been unregistered can sign up again: the
    sign-up succeeds and appends a new row for the pair, so the student
    comes last in the list. *)
Theorem unregister_signup_again a e d body d1 :
  unique_signups d →
  (∀ row m, activities d !! a = Some row →
            Row.max_participants row = Some m → count_participants a d ≤ m) →
  high_water d < MAX_ROWID →
  unregister_from_activity a e d = (Returns body, d1) →
  signup_for_activity a e d1 =
    (Returns (Message ("Signed up " +:+ e +:+ " for " +:+ a)),
     Db (activities d1)
        (participants d1 ++ [Row.Participant (high_water d1 + 1) a e])
        (high_water d1 + 1)).
Proof.
  intros Hkeys Hcap Hlt
    ([row Ha] & _ & p & Hsel & ->)%unregister_from_activity_Returns.
  apply select_signup_Some in Hsel as [Hp Hps].
  apply (signup_for_activity_inserts _ _ _ row); [done | | |].
  - by apply delete_participant_signup_gone.
  - destruct (Row.max_participants row) as [m|] eqn:Hmax; [| by left].
    right. exists m. split; [done |].
    pose proof (count_participants_delete_lt a p d Hp (proj1 Hps)).
    specialize (Hcap row m Ha Hmax). lia.
  - by apply delete_participant_rowid_left.
Qed.

Lemma unregister_signup_again_witness :
  ∃ d1 d2,
    unregister_from_activity "Tiny Club" "emma@mergington.edu" sample_db =
      (Returns (Message "Unregistered emma@mergington.edu from Tiny Club"), d1) ∧
    signup_for_activity "Tiny Club" "emma@mergington.edu" d1 =
      (Returns (Message "Signed up emma@mergington.edu for Tiny Club"), d2) ∧
    emails_of "Tiny Club" (participants d2) =
      ["john@mergington.edu"; "emma@mergington.edu"].
Proof.
  assert (∃ d1, unregister_from_activity "Tiny Club" "emma@mergington.edu" sample_db =
            (Returns (Message "Unregistered emma@mergington.edu from Tiny Club"), d1))
    as [d1 Hun] by (eexists; vm_compute; reflexivity).
  exists d1. eexists. split; [exact Hun |]. split.
  - refine (unregister_signup_again "Tiny Club" "emma@mergington.edu" sample_db
              _ d1 _ _ _ Hun).
    + unfold unique_signups. apply (bool_decide_unpack _). by vm_compute.
    + intros row m Ha Hmax. vm_compute in Ha. injection Ha as <-.
      injection Hmax as <-. vm_compute. discriminate.
    + vm_compute. reflexivity.
  - vm_compute in Hun. injection Hun as <-. vm_compute. reflexivity.
Defined.
End again.

(** ** The helper of the listing *)

Section helper.
Implicit Types (l : list (string * Row.activity)) (k : string).

(** A name with no row gets no entry. *)
Lemma build_activity_dict_lookup_None l k :
  k ∉ l.*1 → build_activity_dict l !! k = None.
Proof.
  induction l as [|[k' r'] l IH] using rev_ind; [done |].
  rewrite fmap_app, build_activity_dict_snoc. simpl.
  intros Hk. rewrite lookup_insert_ne.
  - apply IH. intros Hin. apply Hk, elem_of_app. by left.
  - intros ->. apply Hk, elem_of_app. right. left.
Qed.

(** The last row of a name decides its entry. *)
Lemma build_activity_dict_lookup_last l1 k r l2 :
  k ∉ l2.*1 →
  build_activity_dict (l1 ++ (k, r) :: l2) !! k = Some (entry_of_row r []).
Proof.
  induction l2 as [|[k' r'] l2 IH] using rev_ind; intros Hk.
  - by rewrite build_activity_dict_snoc, lookup_insert_eq.
  - rewrite fmap_app in Hk.
    replace (l1 ++ (k, r) :: l2 ++ [(k', r')])
      with ((l1 ++ (k, r) :: l2) ++ [(k', r')]) by by rewrite <- app_assoc.
    rewrite build_activity_dict_snoc. simpl. rewrite lookup_insert_ne.
    + apply IH. intros Hin. apply Hk, elem_of_app. by left.
    + intros ->. apply Hk, elem_of_app. right. left.
Qed.

(** X11: [build_activity_dict] on any list of rows, also one that
    repeats a name.  The keys of the dictionary are the names of the rows;
    every entry has the columns of a row of its name and an empty
    participant list; where a name has several rows, its last row
    decides. *)
Theorem build_activity_dict_rows l :
  dom (build_activity_dict l) = list_to_set l.*1 ∧
  (∀ k en, build_activity_dict l !! k = Some en →
           Entry.participants en = [] ∧
           ∃ r, (k, r) ∈ l ∧ en = entry_of_row r []) ∧
  (∀ l1 k r l2, l = l1 ++ (k, r) :: l2 → k ∉ l2.*1 →
                build_activity_dict l !! k = Some (entry_of_row r [])).
Proof.
  split; [| split].
  - induction l as [|[k r] l IH] using rev_ind; [done |].
    rewrite build_activity_dict_snoc, dom_insert_L, IH, fmap_app. simpl.
    rewrite list_to_set_app_L. simpl.
    rewrite (right_id_L ∅ (∪)). apply (comm_L (∪)).
  - induction l as [|[k' r'] l IH] using rev_ind; intros k en; [done |].
    rewrite build_activity_dict_snoc, lookup_insert_Some. simpl.
    intros [[-> <-] | [_ Hen]].
    + split; [done |]. exists r'. split; [| done]. apply elem_of_app. right. left.
    + destruct (IH k en Hen) as [Hnil (r & Hr & ->)]. split; [done |].
      exists r. split; [| done]. apply elem_of_app. by left.
  - intros l1 k r l2 ->. apply build_activity_dict_lookup_last.
Qed.

Lemma build_activity_dict_rows_witness :
  build_activity_dict
    [ ("Chess Club", Row.Activity "Old" "Mondays" (Some 5));
      ("Art Club", Row.Activity "Paint" "Thursdays" None);
      ("Chess Club", Row.Activity "New" "Fridays" (Some 12)) ] !! "Chess Club" =
    Some (Entry.Make "New" "Fridays" (Some 12) []).
Proof.
  refine (proj2 (proj2 (build_activity_dict_rows _))
            [ ("Chess Club", Row.Activity "Old" "Mondays" (Some 5));
              ("Art Club", Row.Activity "Paint" "Thursdays" None) ]
            "Chess Club" (Row.Activity "New" "Fridays" (Some 12)) [] _ _).
  - reflexivity.
  - simpl. apply not_elem_of_nil.
Defined.
End helper.

(** ** What the bootstrap seeds *)

Section seeding.
Implicit Types (a e k : string) (d : db) (f : file)
  (items : list (string * Entry.t)).

(** X12: on a file whose [activities] table is missing or empty, and
    whose participants table has a rowid left for each of the 18 rows of
    the catalogue, the bootstrap completes and seeds the catalogue.  The
    names of table [activities] are then those of [INITIAL_ACTIVITIES];
    every catalogue activity has its description, schedule and capacity,
    and each of its initial participants is registered; the participant
    rows the file already had are kept, in order, before the new ones. *)
Theorem init_db_seeds_catalogue f :
  activities (create_tables f) = ∅ →
  high_water (create_tables f) + 18 ≤ MAX_ROWID →
  ∃ d, init_db f = Done d ∧
       participants (create_tables f) `prefix_of` participants d ∧
       dom (activities d) = list_to_set INITIAL_ACTIVITIES.*1 ∧
       ∀ name data, (name, data) ∈ INITIAL_ACTIVITIES →
         activities d !! name =
           Some (Row.Activity (Entry.description data) (Entry.schedule data)
                   (Entry.max_participants data)) ∧
         ∀ email, email ∈ Entry.participants data → signed_up name email d.
Proof.
  intros Hempty Hroom. rewrite (init_db_empty _ Hempty).
  assert (∀ k, k ∈ INITIAL_ACTIVITIES.*1 →
               activities (create_tables f) !! k = None) as Hfresh
    by (intros k _; by rewrite Hempty, lookup_empty).
  destruct (seed_activities_Done INITIAL_ACTIVITIES (create_tables f))
    as [d Hd]; [apply INITIAL_ACTIVITIES_NoDup | done | done |].
  destruct (seed_activities_spec _ _ _ INITIAL_ACTIVITIES_NoDup Hfresh Hd)
    as (Hpre & Hother & Hitems & _).
  exists d. do 2 (split; [done |]). split; [| done].
  apply set_eq. intros k. rewrite elem_of_dom, elem_of_list_to_set. split.
  - intros Hk. destruct (decide (k ∈ INITIAL_ACTIVITIES.*1)) as [| Hnot]; [done |].
    rewrite (Hother k Hnot), Hempty, lookup_empty in Hk. by destruct Hk.
  - intros ([name data] & -> & Hin)%list_elem_of_fmap. simpl.
    destruct (Hitems name data Hin) as [-> _]. by eexists.
Qed.

Lemma init_db_seeds_catalogue_witness :
  ∃ d, init_db (persist orphan_db) = Done d ∧
       participants orphan_db `prefix_of` participants d ∧
       dom (activities d) = list_to_set INITIAL_ACTIVITIES.*1.
Proof.
  destruct (init_db_seeds_catalogue (persist orphan_db))
    as (d & Hd & Hpre & Hdom & _); [reflexivity | vm_compute; discriminate |].
  exists d. split; [exact Hd |]. split; [| exact Hdom].
  by rewrite create_tables_persist in Hpre.
Defined.

(** The first participant insert of the seeding fails when no rowid is
    left. *)
Lemma seed_activities_no_rowid name data email emails items d :
  Entry.participants data = email :: emails →
  activities d !! name = None →
  MAX_ROWID ≤ high_water d →
  seed_activities ((name, data) :: items) d = OperationalError.
Proof.
  intros Hemails Hfresh Hge. simpl. unfold insert_activity.
  rewrite Hfresh, Hemails. simpl.
  by rewrite insert_participant_OperationalError.
Qed.

(** X15: on a file whose [activities] table is missing or empty and
    whose participants table has no rowid left, the bootstrap raises the
    [sqlite3.OperationalError] of its first participant insert, which it
    does not catch. *)
Theorem init_db_no_rowid_left f :
  activities (create_tables f) = ∅ →
  MAX_ROWID ≤ high_water (create_tables f) →
  init_db f = OperationalError.
Proof.
  intros Hempty Hge. rewrite (init_db_empty _ Hempty).
  unfold INITIAL_ACTIVITIES.
  eapply seed_activities_no_rowid; [reflexivity | | done].
  by rewrite Hempty, lookup_empty.
Qed.

Lemma init_db_no_rowid_left_witness :
  init_db (File None (Some ([], MAX_ROWID))) = OperationalError.
Proof.
  apply (init_db_no_rowid_left (File None (Some ([], MAX_ROWID)))).
  - reflexivity.
  - vm_compute. discriminate.
Defined.
End seeding.

(** ** Sequences of requests and the listing *)

Section sequences.
Implicit Types (a e k : string) (d : db) (rs : list request).

Lemma serve_integrity r d :
  referential_integrity d → referential_integrity (serve d r).
Proof.
  destruct r; simpl;
    [apply signup_for_activity_integrity | apply unregister_from_activity_integrity].
Qed.

(** X13: no sequence of sign-up and unregister requests creates, changes
    or deletes an activity, and none leaves a participant row without its
    activity when there was none before. *)
Theorem serve_all_keeps_activities rs d :
  activities (serve_all rs d) = activities d ∧
  (referential_integrity d → referential_integrity (serve_all rs d)).
Proof.
  unfold serve_all. revert d.
  induction rs as [|r rs IH]; intros d; simpl; [done |].
  destruct (IH (serve d r)) as [-> Hri]. split; [apply serve_activities |].
  intros Hd. by apply Hri, serve_integrity.
Qed.

Lemma serve_all_keeps_activities_witness :
  referential_integrity
    (serve_all [ SignUp "Ghost Club" "x@mergington.edu";
                 SignUp "Open Club" "x@mergington.edu";
                 Unregister "Chess Club" "michael@mergington.edu" ] sample_db).
Proof.
  apply serve_all_keeps_activities.
  intros p Hp. unfold sample_db in Hp. simpl in Hp.
  repeat (apply elem_of_cons in Hp as [-> | Hp]);
    [vm_compute; eauto .. | by apply elem_of_nil in Hp].
Defined.

Lemma Returns_eq_inv {A} (x y : A) d d' :
  (Returns x, d) = (Returns y, d') → x = y.
Proof. by intros [= -> _]. Qed.

(** X14: the listing and the capacity check agree.  The participant list
    shown for an activity has as many e-mails as the count that a sign-up
    compares with [max_participants]. *)
Theorem get_activities_length_is_count d :
  ∃ res, get_activities d = (Returns res, d) ∧
         ∀ k en, res !! k = Some en →
                 Z.of_nat (length (Entry.participants en)) = count_participants k d.
Proof.
  eexists. split; [reflexivity |].
  intros k en. rewrite assembled_lookup.
  intros (row & _ & ->)%fmap_Some. simpl.
  unfold emails_of, count_participants. by rewrite length_fmap.
Qed.

Lemma get_activities_length_is_count_witness :
  ∃ res en,
    get_activities sample_db = (Returns res, sample_db) ∧
    res !! "Tiny Club" = Some en ∧
    Z.of_nat (length (Entry.participants en)) =
      count_participants "Tiny Club" sample_db.
Proof.
  destruct (get_activities_length_is_count sample_db) as (res & Hres & Hlen).
  assert (∃ en, res !! "Tiny Club" = Some en) as [en Hen].
  { apply Returns_eq_inv in Hres as <-. vm_compute. eauto. }
  exists res, en. split; [exact Hres |]. split; [exact Hen |]. by apply Hlen.
Defined.
End sequences.
